(** * QuickCourt: booking conflicts, durations, status changes and the
    bookings endpoint

    A shallow embedding of

    - [supabase/migrations/20250924062155_rapid_spring.sql]: the [bookings]
      and [booking_notifications] tables with their constraints, the
      row-level security of [bookings] for reading, the utility functions
      [check_booking_conflicts], [calculate_booking_duration] and
      [create_booking_notification], the triggers
      [update_updated_at_column], [notify_owner_on_booking] and
      [notify_customer_on_status_change], and the view [facility_stats];
    - [server/routes.ts]: the handlers of [registerRoutes].

    SQL statements are functions from a database state to a result; a
    statement that raises an error has no effect (PostgreSQL rolls it back).
    The [INSERT] and [UPDATE] statements are those of a session that
    row-level security admits (the policies of sections 20 and 21 of the
    migration look at [customer_id] and at the facility's [owner_id], never
    at a status or a time; the "Service role bypass" policies admit every
    row). What a query reads depends on the session: the functions are
    [SECURITY INVOKER], so [check_booking_conflicts] reads the rows of
    [bookings] that the [SELECT] policies show its caller.

    [NUMERIC] arithmetic is PostgreSQL's, version 14 or later, where
    [EXTRACT] gives a [NUMERIC]: a quotient is rounded to the scale that
    [select_div_scale] picks. *)

From Stdlib Require Import QArith Qabs Ascii.
From stdpp Require Import gmap strings list fin_maps pretty.

Local Open Scope N_scope.

(** ** SQL values *)

(** [UUID] values, as 128-bit numbers. *)
Definition uuid := N.

(** [TIMESTAMPTZ] values, microseconds since the epoch. *)
Definition timestamptz := N.

(** [TIME] values, microseconds since midnight (PostgreSQL's own
    representation). *)
Definition time := N.

(** [INTERVAL] values, in microseconds (the difference of two [TIME]s has no
    month or day part). *)
Definition interval := Z.

(** [DATE] values, as a civil date; the code compares dates for equality and
    prints them. *)
Record date := mk_date { year : N; month : N; day : N }.

#[global] Instance date_eq_dec : EqDecision date.
Proof. solve_decision. Defined.

(** The time literal ['HH:MM:SS']. *)
Definition make_time (h m s : N) : time := ((h * 60 + m) * 60 + s) * 1000000.

(** *** Three-valued logic

    A SQL boolean is [TRUE], [FALSE] or [NULL]; a nullable value is an
    [option]. *)
Definition sql_bool := option bool.

Definition sql_and (a b : sql_bool) : sql_bool :=
  match a, b with
  | Some false, _ | _, Some false => Some false
  | Some true, Some true => Some true
  | _, _ => None
  end.

Definition sql_or (a b : sql_bool) : sql_bool :=
  match a, b with
  | Some true, _ | _, Some true => Some true
  | Some false, Some false => Some false
  | _, _ => None
  end.

Definition sql_cmp {A} (cmp : A → A → bool) (a b : option A) : sql_bool :=
  match a, b with
  | Some x, Some y => Some (cmp x y)
  | _, _ => None
  end.

(** [a = b], [a != b], [a < b] and [a > b]. *)
Definition sql_eq `{EqDecision A} : option A → option A → sql_bool :=
  sql_cmp (λ x y, bool_decide (x = y)).
Definition sql_ne `{EqDecision A} : option A → option A → sql_bool :=
  sql_cmp (λ x y, negb (bool_decide (x = y))).
Definition sql_lt : option time → option time → sql_bool := sql_cmp N.ltb.
Definition sql_gt : option time → option time → sql_bool :=
  sql_cmp (λ x y, N.ltb y x).

(** [a IS NULL] is never [NULL] itself. *)
Definition sql_is_null {A} (a : option A) : sql_bool :=
  Some (match a with None => true | Some _ => false end).

(** [a IN (v1, ..., vn)] for a list of non-null literals. *)
Definition sql_in (a : option string) (vs : list string) : sql_bool :=
  match a with
  | Some x => Some (bool_decide (x ∈ vs))
  | None => None
  end.

(** A [WHERE] clause, an [IF] and a [CHECK] read a SQL boolean differently:
    [WHERE] and [IF] take the row or the branch only on [TRUE], a [CHECK]
    rejects only on [FALSE]. *)
Definition is_true (b : sql_bool) : bool :=
  match b with Some true => true | _ => false end.
Definition check_passes (b : sql_bool) : bool :=
  match b with Some false => false | _ => true end.

Infix "AND" := sql_and (at level 41, left associativity, only parsing).
Infix "OR" := sql_or (at level 42, left associativity, only parsing).

(** [a || b] on text: [NULL] if either side is. *)
Definition sql_concat (a b : option string) : option string :=
  match a, b with
  | Some x, Some y => Some (x +:+ y)
  | _, _ => None
  end.

(** *** Text output of dates and times

    [date || text] and [time || text] print the value first: ISO dates
    (['YYYY-MM-DD'], the default [DateStyle]) and ['HH:MM:SS'] followed by
    the fraction of a second, if any, without trailing zeros. *)
Definition pad (width : nat) (n : N) : string :=
  let s := pretty n in
  String.concat "" (replicate (width - String.length s)%nat "0") +:+ s.

Fixpoint drop_zeros (s : string) : string :=
  match s with
  | String c s' => if Ascii.eqb c "0"%char then drop_zeros s' else s
  | EmptyString => s
  end.

Definition date_out (d : date) : string :=
  pad 4 (year d) +:+ "-" +:+ pad 2 (month d) +:+ "-" +:+ pad 2 (day d).

Definition time_out (t : time) : string :=
  let secs := t / 1000000 in
  let frac := t mod 1000000 in
  pad 2 (secs / 3600) +:+ ":" +:+ pad 2 (secs / 60 mod 60) +:+ ":"
    +:+ pad 2 (secs mod 60)
    +:+ (if frac =? 0 then ""
         else "." +:+ String.rev (drop_zeros (String.rev (pad 6 frac)))).

(** *** Numbers

    [NUMERIC] values are rationals. Storing one in a [DECIMAL(p,2)] column
    rounds it to hundredths, half away from zero, and raises
    [numeric_value_out_of_range] when the rounded value needs more than [p]
    digits; the column is modelled by its count of hundredths. *)
Definition round_hundredths (q : Q) : Z :=
  let n := (Qnum q * 100)%Z in
  let d := Zpos (Qden q) in
  (Z.sgn n * ((2 * Z.abs n + d) / (2 * d)))%Z.

Definition decimal_in (p : N) (q : Q) : option Z :=
  let h := round_hundredths q in
  if (Z.abs h <? 10 ^ Z.of_N p)%Z then Some h else None.

(** A [NUMERIC] value with its display scale: [unscaled] units of
    [10 ^ - dscale]. *)
Record numeric := mk_numeric { unscaled : Z; dscale : N }.

Definition numeric_value (n : numeric) : Q :=
  Qmake (unscaled n) (Z.to_pos (10 ^ Z.of_N (dscale n))).

(** [n / d] for [0 < d], rounded to an integer, half away from zero. *)
Definition round_div (n d : Z) : Z :=
  (Z.sgn n * ((2 * Z.abs n + d) / (2 * d)))%Z.

(** [q] in units of [10 ^ - k], rounded half away from zero. *)
Definition round_at (k : N) (q : Q) : Z :=
  round_div (Qnum q * 10 ^ Z.of_N k) (Zpos (Qden q)).

(** The number of decimal digits of [u > 0]. *)
Fixpoint decimal_digits_upto (fuel : nat) (u : Z) : Z :=
  match fuel with
  | O => 0
  | S fuel =>
      if (u <? 10)%Z then 1 else (1 + decimal_digits_upto fuel (u / 10))%Z
  end.

Definition decimal_digits (u : Z) : Z :=
  decimal_digits_upto (S (Z.to_nat (Z.log2 u))) u.

(** PostgreSQL keeps a [NUMERIC] in base 10000. Its weight is the exponent
    of its first digit that is not zero, and 0 for zero: the [w] with
    [10000 ^ w <= |v| < 10000 ^ (w + 1)]; [first_digit] is that digit, the
    integer part of [|v| / 10000 ^ w]. *)
Definition numeric_weight (n : numeric) : Z :=
  if (unscaled n =? 0)%Z then 0%Z
  else ((decimal_digits (Z.abs (unscaled n)) - 1 - Z.of_N (dscale n)) / 4)%Z.

Definition first_digit (n : numeric) : Z :=
  let k := (Z.of_N (dscale n) + 4 * numeric_weight n)%Z in
  if (0 <=? k)%Z then (Z.abs (unscaled n) / 10 ^ k)%Z
  else (Z.abs (unscaled n) * 10 ^ (- k))%Z.

(** [select_div_scale] of PostgreSQL's [numeric.c]: the scale of a quotient,
    chosen for at least 16 significant digits ([NUMERIC_MIN_SIG_DIGITS]) from
    an estimate of the quotient's weight, not less than the scale of either
    operand, and between 0 and 1000. *)
Definition select_div_scale (var1 var2 : numeric) : N :=
  let qweight :=
    (numeric_weight var1 - numeric_weight var2
     - (if (first_digit var1 <=? first_digit var2)%Z then 1 else 0))%Z in
  let rscale := (16 - qweight * 4)%Z in
  let rscale := Z.max rscale (Z.of_N (dscale var1)) in
  let rscale := Z.max rscale (Z.of_N (dscale var2)) in
  let rscale := Z.max rscale 0 in
  let rscale := Z.min rscale 1000 in
  Z.to_N rscale.

(** [var1 / var2] on [NUMERIC]s, for a divisor that is not zero (PostgreSQL
    raises [division_by_zero] for zero; the divisors here are [3600.0] and
    a count of rows that is not 0): the quotient rounded to the selected
    scale. *)
Definition numeric_div (var1 var2 : numeric) : numeric :=
  let rscale := select_div_scale var1 var2 in
  mk_numeric (round_at rscale (numeric_value var1 / numeric_value var2))
    rscale.

(** ** Errors *)

Inductive sql_error :=
  | not_null_violation (column : string)
  | check_violation (column : string)
  | unique_violation (column : string)
  | foreign_key_violation (column : string)
  | numeric_value_out_of_range (column : string)
  | invalid_text_representation.

Inductive result (A : Type) :=
  | Ok (a : A)
  | Err (e : sql_error).
Arguments Ok {A} a.
Arguments Err {A} e.

#[global] Instance result_ret : MRet result := λ A a, Ok a.
#[global] Instance result_bind : MBind result := λ A B f r,
  match r with
  | Ok a => f a
  | Err e => Err e
  end.

Definition require (b : bool) (e : sql_error) : result () :=
  if b then Ok () else Err e.

(** A [NOT NULL] column. *)
Definition not_null {A} (column : string) (v : option A) : result A :=
  match v with
  | Some a => Ok a
  | None => Err (not_null_violation column)
  end.

(** A nullable column that [REFERENCES] the keys [keys]. *)
Definition references (column : string) (v : option uuid) (keys : gset uuid)
    : result () :=
  match v with
  | Some k => require (bool_decide (k ∈ keys)) (foreign_key_violation column)
  | None => Ok ()
  end.

(** A [DECIMAL(p,2)] column given a numeric value or [NULL]. *)
Definition decimal_column (column : string) (p : N) (v : option Q)
    : result (option Z) :=
  match v with
  | Some q =>
      match decimal_in p q with
      | Some h => Ok (Some h)
      | None => Err (numeric_value_out_of_range column)
      end
  | None => Ok None
  end.

(** What an [INSERT] gives for a column that has a default: nothing (the
    default applies) or a value, possibly [NULL]. *)
Inductive column_input (A : Type) :=
  | DEFAULT
  | VALUE (v : option A).
Arguments DEFAULT {A}.
Arguments VALUE {A} v.

Definition with_default {A} (d : A) (c : column_input A) : option A :=
  match c with
  | DEFAULT => Some d
  | VALUE v => v
  end.

(** ** Tables

    A table with a [UUID PRIMARY KEY] is a finite map from the key to the
    other columns. Of [users] and [facility_schedules] only the keys matter
    here (they are referenced by foreign keys); of [facilities] the key and
    [owner_id]. *)

(** [facilities.owner_id TEXT NOT NULL -- References auth.users.id]: the text
    is kept as the UUID it spells, [None] when it does not spell one (then
    the cast [owner_id::UUID] raises). *)
Record facility := mk_facility { owner_id : option uuid }.

(** The columns of [bookings] besides [id]. The columns without a constraint
    or a role in the functions and triggers ([payment_method],
    [transaction_id], [owner_notes], [customer_notes], [cancellation_reason],
    [cancelled_by], [cancelled_at]) are left out. *)
Record booking := mk_booking {
  facility_id : uuid;
  customer_id : uuid;
  time_slot_id : option uuid;
  booking_date : date;
  start_time : time;
  end_time : time;
  total_hours : Z;
  total_amount : Z;
  status : string;
  payment_status : string;
  special_requests : option string;
  created_at : timestamptz;
  updated_at : timestamptz
}.

(** The columns of [booking_notifications] besides [id], [read_at] and
    [created_at]. *)
Record booking_notification := mk_booking_notification {
  n_booking_id : uuid;
  n_user_id : uuid;
  notification_type : string;
  title : string;
  message : string;
  is_read : bool
}.

Record database := mk_database {
  users : gset uuid;
  facilities : gmap uuid facility;
  facility_schedules : gset uuid;
  bookings : gmap uuid booking;
  booking_notifications : list booking_notification
}.

Definition set_bookings (bs : gmap uuid booking) (db : database) : database :=
  mk_database (users db) (facilities db) (facility_schedules db) bs
    (booking_notifications db).

Definition set_updated_at (t : timestamptz) (b : booking) : booking :=
  mk_booking (facility_id b) (customer_id b) (time_slot_id b) (booking_date b)
    (start_time b) (end_time b) (total_hours b) (total_amount b) (status b)
    (payment_status b) (special_requests b) (created_at b) t.

Definition set_status (s : string) (b : booking) : booking :=
  mk_booking (facility_id b) (customer_id b) (time_slot_id b) (booking_date b)
    (start_time b) (end_time b) (total_hours b) (total_amount b) s
    (payment_status b) (special_requests b) (created_at b) (updated_at b).

(** The [CHECK] lists of [bookings.status], [bookings.payment_status] and
    [booking_notifications.notification_type]. *)
Definition booking_statuses : list string :=
  ["pending"; "approved"; "denied"; "cancelled"; "completed"].
Definition payment_statuses : list string :=
  ["pending"; "paid"; "refunded"; "failed"].
Definition notification_types : list string :=
  ["booking_confirmation"; "booking_reminder"; "booking_cancellation";
   "facility_update"; "maintenance_alert"; "review_received"; "new_booking";
   "status_update"].

(** ** Row-level security of [bookings] (sections 13 and 20 of the
    migration)

    [ALTER TABLE bookings ENABLE ROW LEVEL SECURITY]: a query reads the rows
    that one of the policies for [SELECT] admits, and every row when the
    policies do not apply to the role of the session. *)

(** The session of a caller, as the policies see it: [auth.uid()] and
    [auth.role()], either of which may be [NULL], and whether row-level
    security is off for its role (the owner of the table, a superuser or a
    role with [BYPASSRLS]). *)
Record session := mk_session {
  bypass_rls : bool;
  auth_role : option string;
  auth_uid : option uuid
}.

(** The [USING] expressions of the three policies that apply to a [SELECT]
    on [bookings], joined by [OR] as permissive policies are: "Customers can
    view their own bookings", "Facility owners can view bookings for their
    facilities" and "Service role bypass bookings". The model does not keep
    the text of [facilities.owner_id], so [facilities.owner_id =
    auth.uid()::text] is the parameter [owner_text_is]. The inner [SELECT] on
    [facilities] reads under the policies of that table, which show a
    facility to the session whose [auth.uid()::text] is its [owner_id]. *)
Definition bookings_select_policies (owner_text_is : facility → uuid → bool)
    (s : session) (db : database) (b : booking) : sql_bool :=
  sql_eq (auth_uid s) (Some (customer_id b))
  OR Some (match facilities db !! facility_id b, auth_uid s with
           | Some f, Some u => owner_text_is f u
           | _, _ => false
           end)
  OR sql_eq (auth_role s) (Some "service_role").

(** Whether the row [b] of [bookings] is shown to the session. *)
Definition bookings_visible (owner_text_is : facility → uuid → bool)
    (s : session) (db : database) (b : booking) : bool :=
  bypass_rls s || is_true (bookings_select_policies owner_text_is s db b).

(** [SELECT ... FROM bookings] in the session [s]: the rows it reads. *)
Definition select_bookings (owner_text_is : facility → uuid → bool)
    (s : session) (db : database) : list (uuid * booking) :=
  List.filter (λ r, bookings_visible owner_text_is s db r.2)
    (map_to_list (bookings db)).

(** ** Utility functions (section 24 of the migration) *)

(** The overlap condition of [check_booking_conflicts], the last conjunct of
    its [WHERE] clause, on a row's [start_time] and [end_time]. *)
Definition overlap_condition (start_time end_time : option time)
    (p_start_time p_end_time : option time) : sql_bool :=
  (sql_lt start_time p_end_time AND sql_gt end_time p_start_time)
  OR (sql_lt p_start_time end_time AND sql_gt p_end_time start_time).

(** The [WHERE] clause of [check_booking_conflicts], on the row [b] with key
    [id]. *)
Definition conflict_where (p_facility_id : option uuid)
    (p_booking_date : option date) (p_start_time p_end_time : option time)
    (p_exclude_booking_id : option uuid) (id : uuid) (b : booking) : sql_bool :=
  sql_eq (Some (facility_id b)) p_facility_id
  AND sql_eq (Some (booking_date b)) p_booking_date
  AND sql_in (Some (status b)) ["pending"; "approved"]
  AND (sql_is_null p_exclude_booking_id
       OR sql_ne (Some id) p_exclude_booking_id)
  AND overlap_condition (Some (start_time b)) (Some (end_time b))
        p_start_time p_end_time.

(** [check_booking_conflicts]: [EXISTS (SELECT 1 FROM bookings WHERE ...)],
    over the rows of [bookings] that are shown to the caller: the function
    is not [SECURITY DEFINER]. *)
Definition check_booking_conflicts (owner_text_is : facility → uuid → bool)
    (caller : session) (p_facility_id : option uuid)
    (p_booking_date : option date) (p_start_time p_end_time : option time)
    (p_exclude_booking_id : option uuid) (db : database) : bool :=
  existsb
    (λ r, is_true (conflict_where p_facility_id p_booking_date p_start_time
                     p_end_time p_exclude_booking_id r.1 r.2))
    (select_bookings owner_text_is caller db).

(** [p_end_time - p_start_time] on [TIME]s, an [INTERVAL]. *)
Definition time_mi_time (t1 t2 : time) : interval := (Z.of_N t1 - Z.of_N t2)%Z.

(** [EXTRACT(EPOCH FROM i)]: the interval in seconds, a [NUMERIC] with six
    decimal places. *)
Definition extract_epoch (i : interval) : numeric := mk_numeric i 6.

(** [calculate_booking_duration]: the value of the [NUMERIC] quotient by
    the literal [3600.0]. [CREATE FUNCTION] discards the [(4,2)] of
    [RETURNS DECIMAL(4,2)], so the function itself does not round to
    hundredths (the column [bookings.total_hours] does, see
    [decimal_in]). *)
Definition calculate_booking_duration (p_start_time p_end_time : time) : Q :=
  numeric_value
    (numeric_div (extract_epoch (time_mi_time p_end_time p_start_time))
       (mk_numeric 36000 1)).

(** The scale of [i / 3600.0] for an interval [i] in microseconds. *)
Definition duration_scale (i : interval) : N :=
  select_div_scale (extract_epoch i) (mk_numeric 36000 1).

(** [create_booking_notification]: one [INSERT INTO booking_notifications],
    under the constraints of that table. *)
Definition create_booking_notification (p_booking_id p_user_id : option uuid)
    (p_notification_type p_title p_message : option string) (db : database)
    : result database :=
  booking_id ← not_null "booking_id" p_booking_id;
  user_id ← not_null "user_id" p_user_id;
  type ← not_null "notification_type" p_notification_type;
  title ← not_null "title" p_title;
  message ← not_null "message" p_message;
  require (check_passes (sql_in (Some type) notification_types))
    (check_violation "notification_type");;
  references "booking_id" (Some booking_id) (dom (bookings db));;
  references "user_id" (Some user_id) (users db);;
  Ok (mk_database (users db) (facilities db) (facility_schedules db)
        (bookings db)
        (booking_notifications db
           ++ [mk_booking_notification booking_id user_id type title message
                 false])).

(** ** Triggers (sections 12 and 25 of the migration)

    A row trigger gets the key and the columns of [NEW] (and [OLD]). *)

Infix "+||+" := sql_concat (at level 60, right associativity, only parsing).

(** [update_updated_at_column], [BEFORE UPDATE ON bookings]. *)
Definition update_updated_at_column (now : timestamptz) (NEW : booking)
    : booking :=
  set_updated_at now NEW.

(** [notify_owner_on_booking], [AFTER INSERT ON bookings]. The [SELECT ...
    INTO owner_id] leaves [owner_id] [NULL] when no facility has the key. *)
Definition notify_owner_on_booking (id : uuid) (NEW : booking) (db : database)
    : result database :=
  owner ← match facilities db !! facility_id NEW with
          | Some f =>
              match owner_id f with
              | Some u => Ok (Some u)
              | None => Err invalid_text_representation
              end
          | None => Ok None
          end;
  create_booking_notification (Some id) owner (Some "new_booking")
    (Some "New Booking Request")
    (Some "You have a new booking request for "
       +||+ Some (date_out (booking_date NEW)) +||+ Some " from "
       +||+ Some (time_out (start_time NEW)) +||+ Some " to "
       +||+ Some (time_out (end_time NEW)))
    db.

(** [notify_customer_on_status_change], [AFTER UPDATE ON bookings]. *)
Definition notify_customer_on_status_change (id : uuid) (OLD NEW : booking)
    (db : database) : result database :=
  if is_true (sql_ne (Some (status OLD)) (Some (status NEW))) then
    create_booking_notification (Some id) (Some (customer_id NEW))
      (Some "status_update")
      (Some "Booking " +||+ Some (status NEW))
      (Some "Your booking for " +||+ Some (date_out (booking_date NEW))
         +||+ Some " has been " +||+ Some (status NEW))
      db
  else Ok db.

(** ** Statements on [bookings] *)

(** The values of an [INSERT INTO bookings]. [v_id] is the key, given or
    drawn by [gen_random_uuid()]; [created_at] and [updated_at] take their
    default, [NOW()]. *)
Record booking_values := mk_booking_values {
  v_id : uuid;
  v_facility_id : option uuid;
  v_customer_id : option uuid;
  v_time_slot_id : option uuid;
  v_booking_date : option date;
  v_start_time : option time;
  v_end_time : option time;
  v_total_hours : option Q;
  v_total_amount : option Q;
  v_status : column_input string;
  v_payment_status : column_input string;
  v_special_requests : option string
}.

(** [INSERT INTO bookings (...) VALUES (...)]: the values are coerced to the
    column types, the [NOT NULL] and [CHECK] constraints and the primary key
    are checked, the row is stored, and the [AFTER] row triggers run in name
    order: the foreign-key checks, then [trigger_notify_owner_on_booking]. *)
Definition insert_booking (now : timestamptz) (v : booking_values)
    (db : database) : result database :=
  hours ← decimal_column "total_hours" 4 (v_total_hours v);
  amount ← decimal_column "total_amount" 10 (v_total_amount v);
  facility ← not_null "facility_id" (v_facility_id v);
  customer ← not_null "customer_id" (v_customer_id v);
  date ← not_null "booking_date" (v_booking_date v);
  start ← not_null "start_time" (v_start_time v);
  finish ← not_null "end_time" (v_end_time v);
  hours ← not_null "total_hours" hours;
  amount ← not_null "total_amount" amount;
  status ← not_null "status" (with_default "pending" (v_status v));
  payment ← not_null "payment_status"
              (with_default "pending" (v_payment_status v));
  require (check_passes (sql_in (Some status) booking_statuses))
    (check_violation "status");;
  require (check_passes (sql_in (Some payment) payment_statuses))
    (check_violation "payment_status");;
  require (bool_decide (bookings db !! v_id v = None)) (unique_violation "id");;
  let NEW := mk_booking facility customer (v_time_slot_id v) date start finish
               hours amount status payment (v_special_requests v) now now in
  let db' := set_bookings (<[v_id v := NEW]> (bookings db)) db in
  references "facility_id" (Some facility) (dom (facilities db'));;
  references "customer_id" (Some customer) (users db');;
  references "time_slot_id" (v_time_slot_id v) (facility_schedules db');;
  notify_owner_on_booking (v_id v) NEW db'.

(** [UPDATE bookings SET status = p_status WHERE id = p_id]: no row, no
    effect; otherwise [update_bookings_updated_at] runs, the constraints on
    [status] are checked, the row is stored and
    [trigger_notify_customer_on_status_change] runs (no referencing column
    changes, so no foreign key is checked again). *)
Definition update_booking_status (now : timestamptz) (p_id : uuid)
    (p_status : option string) (db : database) : result database :=
  match bookings db !! p_id with
  | None => Ok db
  | Some OLD =>
      s ← not_null "status" p_status;
      let NEW := update_updated_at_column now (set_status s OLD) in
      require (check_passes (sql_in (Some (status NEW)) booking_statuses))
        (check_violation "status");;
      notify_customer_on_status_change p_id OLD NEW
        (set_bookings (<[p_id := NEW]> (bookings db)) db)
  end.

(** The state after a statement: that of its result, or the old one when it
    raised an error. *)
Definition exec (stmt : database → result database) (db : database)
    : database :=
  match stmt db with
  | Ok db' => db'
  | Err _ => db
  end.

(** ** The bookings endpoint ([server/routes.ts]) *)

Module Routes.

(** JavaScript values as a parsed request body has them. Numbers are
    rationals (a JSON text has no [NaN] and no infinity); an object is the
    list of its own properties, each name once. *)
#[local] Unset Elimination Schemes.
Inductive js_value :=
  | JUndefined
  | JNull
  | JBool (b : bool)
  | JNumber (q : Q)
  | JString (s : string)
  | JObject (props : list (string * js_value))
  | JArray (items : list js_value).
#[local] Set Elimination Schemes.

(** [ToBoolean]: what [!v] negates. *)
Definition truthy (v : js_value) : bool :=
  match v with
  | JUndefined | JNull => false
  | JBool b => b
  | JNumber q => negb (Qeq_bool q 0)
  | JString s => negb (bool_decide (s = ""))
  | JObject _ | JArray _ => true
  end.

Fixpoint lookup_prop (k : string) (props : list (string * js_value))
    : js_value :=
  match props with
  | [] => JUndefined
  | (k', v) :: rest => if bool_decide (k' = k) then v else lookup_prop k rest
  end.

(** [v.k] for a [v] that is neither [null] nor [undefined], and a name [k]
    that no prototype defines: the own property of an object, [undefined] on
    anything else. *)
Definition get (v : js_value) (k : string) : js_value :=
  match v with
  | JObject props => lookup_prop k props
  | _ => JUndefined
  end.

(** [v?.k]. *)
Definition opt_get (v : js_value) (k : string) : js_value :=
  match v with
  | JUndefined | JNull => JUndefined
  | _ => get v k
  end.

(** [a || b] and [a ?? b]. *)
Definition js_or (a b : js_value) : js_value := if truthy a then a else b.
Definition js_nullish (a b : js_value) : js_value :=
  match a with
  | JUndefined | JNull => b
  | _ => a
  end.

Record response := mk_response { res_status : N; res_json : js_value }.

(** The handler of [app.post('/api/bookings', ...)]: from the request body,
    the [bookings] array and the result of [new Date().toISOString()] to the
    array afterwards and the response. *)
Definition post_bookings (now_iso : string) (req_body : js_value)
    (bookings : list js_value) : list js_value * response :=
  let body := js_or req_body (JObject []) in
  let userId := get body "userId" in
  let facilityId := get body "facilityId" in
  let courtId := get body "courtId" in
  let date := get body "date" in
  let timeSlot := get body "timeSlot" in
  let totalPrice := get body "totalPrice" in
  if negb (truthy userId) || negb (truthy facilityId) || negb (truthy courtId)
     || negb (truthy date) || negb (truthy (opt_get timeSlot "start"))
     || negb (truthy (opt_get timeSlot "end"))
  then
    (bookings,
     mk_response 400 (JObject [("message", JString "Missing required fields")]))
  else
    let id := JString (pretty (length bookings + 1)%nat) in
    let booking :=
      JObject [("id", id); ("userId", userId); ("facilityId", facilityId);
               ("courtId", courtId); ("date", date); ("timeSlot", timeSlot);
               ("status", JString "confirmed");
               ("totalPrice", js_nullish totalPrice (JNumber 0));
               ("paymentStatus", JString "pending");
               ("createdAt", JString now_iso)] in
    (bookings ++ [booking], mk_response 201 booking).

(** [a === b] where [b] was read off the request at hand: primitives are
    compared by type and value; an object or array of the request is no
    object of the store, so it is equal to nothing there. *)
Definition strict_equals (a b : js_value) : bool :=
  match a, b with
  | JUndefined, JUndefined | JNull, JNull => true
  | JBool x, JBool y => bool_decide (x = y)
  | JNumber x, JNumber y => Qeq_bool x y
  | JString x, JString y => bool_decide (x = y)
  | _, _ => false
  end.

(** [Array.prototype.find]: the first element that passes, or [undefined]. *)
Fixpoint find (p : js_value → bool) (l : list js_value) : js_value :=
  match l with
  | [] => JUndefined
  | x :: rest => if p x then x else find p rest
  end.

(** The handler of [app.get('/api/facilities/:id', ...)], over the imported
    [mockFacilities]; [req.params.id] is a string. *)
Definition get_facility (mockFacilities : list js_value) (id : string)
    : response :=
  let facility :=
    find (λ f, strict_equals (get f "id") (JString id)) mockFacilities in
  if negb (truthy facility) then
    mk_response 404 (JObject [("message", JString "Facility not found")])
  else mk_response 200 facility.

(** The handler of [app.get('/api/facilities/:id/courts', ...)], over the
    imported [mockCourts]. *)
Definition get_facility_courts (mockCourts : list js_value) (id : string)
    : response :=
  mk_response 200
    (JArray
       (List.filter (λ c, strict_equals (get c "facilityId") (JString id))
          mockCourts)).

(** The handler of [app.get('/api/bookings', ...)]; [userId] is
    [req.query.userId], [undefined] when the query has none. *)
Definition get_bookings (userId : js_value) (bookings : list js_value)
    : response :=
  mk_response 200
    (JArray
       (if truthy userId then
          List.filter (λ b, strict_equals (get b "userId") userId) bookings
        else bookings)).

(** The [bookings] array after the [POST /api/bookings] requests [reqs], each
    the time and the body of a request, in order. *)
Definition post_all (reqs : list (string * js_value))
    (bookings : list js_value) : list js_value :=
  fold_left (λ bs req, (post_bookings req.1 req.2 bs).1) reqs bookings.

(** *** Objects built by spreading *)

(** Defining the property [k] of an object: in place when the object has
    it, at the end otherwise. *)
Fixpoint set_prop (k : string) (v : js_value)
    (props : list (string * js_value)) : list (string * js_value) :=
  match props with
  | [] => [(k, v)]
  | (k', v') :: rest =>
      if bool_decide (k' = k) then (k, v) :: rest
      else (k', v') :: set_prop k v rest
  end.

(** The own enumerable properties of a value: those of an object, the
    indices of an array and of a string, none of the other primitives. *)
Definition own_props (v : js_value) : list (string * js_value) :=
  match v with
  | JObject props => props
  | JArray items => imap (λ i x, (pretty i, x)) items
  | JString s =>
      imap (λ i c, (pretty i, JString (String c ""))) (String.list_ascii_of_string s)
  | _ => []
  end.

(** [{ ...target, ...source }], given the properties of [target]. *)
Definition spread (target : list (string * js_value)) (source : js_value)
    : list (string * js_value) :=
  fold_left (λ acc kv, set_prop kv.1 kv.2 acc) (own_props source) target.

(** *** User profiles: [profiles = new Map<string, ProfileData>()] *)

(** The profile [ensureProfile] stores for a user that has none. *)
Definition default_profile (userId : string) : list (string * js_value) :=
  [("fullName", JString ("User " +:+ userId)); ("phone", JString "");
   ("address", JString ""); ("businessName", JString "");
   ("businessAddress", JString "")].

(** [ensureProfile]: the map afterwards and the profile returned. *)
Definition ensureProfile (userId : string)
    (profiles : gmap string (list (string * js_value)))
    : gmap string (list (string * js_value)) * list (string * js_value) :=
  match profiles !! userId with
  | Some profile => (profiles, profile)
  | None =>
      (<[userId := default_profile userId]> profiles, default_profile userId)
  end.

(** The handler of [app.get('/api/profile/:userId', ...)]. *)
Definition get_profile (userId : string)
    (profiles : gmap string (list (string * js_value)))
    : gmap string (list (string * js_value)) * response :=
  let '(profiles, profile) := ensureProfile userId profiles in
  (profiles,
   mk_response 200
     (JObject (spread [("userId", JString userId)] (JObject profile)))).

(** The handler of [app.put('/api/profile/:userId', ...)]. *)
Definition put_profile (userId : string) (req_body : js_value)
    (profiles : gmap string (list (string * js_value)))
    : gmap string (list (string * js_value)) * response :=
  let body := js_or req_body (JObject []) in
  let next :=
    [("fullName", js_nullish (get body "fullName") (JString ""));
     ("phone", js_nullish (get body "phone") (JString ""));
     ("address", js_nullish (get body "address") (JString ""));
     ("businessName", js_nullish (get body "businessName") (JString ""));
     ("businessAddress",
      js_nullish (get body "businessAddress") (JString ""))] in
  (<[userId := next]> profiles,
   mk_response 200
     (JObject (spread [("userId", JString userId)] (JObject next)))).

(** The handler of [app.patch('/api/profile/:userId', ...)]. *)
Definition patch_profile (userId : string) (req_body : js_value)
    (profiles : gmap string (list (string * js_value)))
    : gmap string (list (string * js_value)) * response :=
  let '(profiles, existing) := ensureProfile userId profiles in
  let update := js_or req_body (JObject []) in
  let merged := spread (spread [] (JObject existing)) update in
  (<[userId := merged]> profiles,
   mk_response 200
     (JObject (spread [("userId", JString userId)] (JObject merged)))).

End Routes.

(** The six values the handler of [POST /api/bookings] requires, as it reads
    them off the request body. *)
Definition required_values (req_body : Routes.js_value)
    : list Routes.js_value :=
  let body := Routes.js_or req_body (Routes.JObject []) in
  [Routes.get body "userId"; Routes.get body "facilityId";
   Routes.get body "courtId"; Routes.get body "date";
   Routes.opt_get (Routes.get body "timeSlot") "start";
   Routes.opt_get (Routes.get body "timeSlot") "end"].

(** ** Properties of a bookings table *)

(** A booking that holds its slot: [status IN ('pending', 'approved')]. *)
Definition active (b : booking) : Prop :=
  status b = "pending" ∨ status b = "approved".

(** Two bookings of one facility and date whose half-open intervals
    [[start_time, end_time)] meet. *)
Definition overlap (a b : booking) : Prop :=
  facility_id a = facility_id b ∧ booking_date a = booking_date b
  ∧ start_time a < end_time b ∧ start_time b < end_time a.

(** The no-overlap invariant: no two active bookings overlap. *)
Definition no_overlap (bs : gmap uuid booking) : Prop :=
  ∀ i j a b, i ≠ j → bs !! i = Some a → bs !! j = Some b →
    active a → active b → ¬ overlap a b.

(** One successful statement: an insert or a status update. *)
Inductive step (db db' : database) : Prop :=
  | step_insert now v :
      insert_booking now v db = Ok db' → step db db'
  | step_update now id s :
      update_booking_status now id s db = Ok db' → step db db'.

(** The session is shown every booking of the facility [f]. *)
Definition sees_bookings_of (owner_text_is : facility → uuid → bool)
    (caller : session) (db : database) (f : uuid) : Prop :=
  ∀ id b, bookings db !! id = Some b → facility_id b = f →
    bookings_visible owner_text_is caller db b = true.

(** One successful statement made after [check_booking_conflicts] answered
    false to a caller that is shown every booking of the facility: before
    every insert, for the new interval; before every update that makes an
    inactive booking active, for that booking's interval with the booking
    itself excluded. *)
Inductive checked_step (owner_text_is : facility → uuid → bool)
    (db db' : database) : Prop :=
  | checked_insert caller now v :
      (∀ f, v_facility_id v = Some f →
            sees_bookings_of owner_text_is caller db f) →
      check_booking_conflicts owner_text_is caller (v_facility_id v)
        (v_booking_date v) (v_start_time v) (v_end_time v) None db = false →
      insert_booking now v db = Ok db' → checked_step owner_text_is db db'
  | checked_update caller now id s :
      (∀ b, bookings db !! id = Some b → ¬ active b →
            active (set_status s b) →
            sees_bookings_of owner_text_is caller db (facility_id b)
            ∧ check_booking_conflicts owner_text_is caller
                (Some (facility_id b)) (Some (booking_date b))
                (Some (start_time b)) (Some (end_time b)) (Some id) db
              = false) →
      update_booking_status now id (Some s) db = Ok db' →
      checked_step owner_text_is db db'.

(** A [TIME] as seconds since midnight. *)
Definition seconds (t : time) : Q := Qmake (Z.of_N t) 1000000.

(** The constraints an [INSERT INTO bookings] is held to: column ranges,
    [NOT NULL], [CHECK], the primary key and the foreign keys, those of the
    notification for the owner included. None looks at the interval of a
    stored booking. *)
Definition in_range (p : N) (v : option Q) : bool :=
  match v with
  | Some q => bool_decide (is_Some (decimal_in p q))
  | None => false
  end.

Definition one_of (vs : list string) (v : option string) : bool :=
  match v with
  | Some s => bool_decide (s ∈ vs)
  | None => false
  end.

Definition owner_known (v : option uuid) (db : database) : bool :=
  match v with
  | Some f =>
      match facilities db !! f with
      | Some (mk_facility (Some u)) => bool_decide (u ∈ users db)
      | _ => false
      end
  | None => false
  end.

Definition insert_admissible (v : booking_values) (db : database) : bool :=
  in_range 4 (v_total_hours v)
  && in_range 10 (v_total_amount v)
  && bool_decide (is_Some (v_booking_date v))
  && bool_decide (is_Some (v_start_time v))
  && bool_decide (is_Some (v_end_time v))
  && one_of booking_statuses (with_default "pending" (v_status v))
  && one_of payment_statuses (with_default "pending" (v_payment_status v))
  && bool_decide (bookings db !! v_id v = None)
  && match v_customer_id v with
     | Some c => bool_decide (c ∈ users db)
     | None => false
     end
  && match v_time_slot_id v with
     | Some k => bool_decide (k ∈ facility_schedules db)
     | None => true
     end
  && owner_known (v_facility_id v) db.

(** ** Sample data (section 27 of the migration)

    The users, the first facility and the first booking of the migration's
    sample rows, on a fixed day. *)
Definition admin : uuid := 0x00000000000000000000000000000001.
Definition owner : uuid := 0x00000000000000000000000000000002.
Definition customer : uuid := 0x00000000000000000000000000000003.
Definition court : uuid := 0x10000000000000000000000000000001.
Definition the_day : date := mk_date 2025 9 26.

Definition sample_db : database :=
  mk_database {[admin; owner; customer]} {[court := mk_facility (Some owner)]}
    ∅ ∅ [].

(** [f.owner_id = u::text] for an [owner_id] written as the id is. *)
Definition owner_is (f : facility) (u : uuid) : bool :=
  bool_decide (owner_id f = Some u).

(** The session of a signed-in user, and that of the service role. *)
Definition signed_in (u : uuid) : session :=
  mk_session false (Some "authenticated") (Some u).
Definition service_role : session :=
  mk_session false (Some "service_role") None.

(** A booking of [court] by [customer] on [the_day], with [status] and
    [payment_status] left to their defaults. *)
Definition sample_values (id : uuid) (start finish : time) (hours : Q)
    : booking_values :=
  mk_booking_values id (Some court) (Some customer) None (Some the_day)
    (Some start) (Some finish) (Some hours) (Some 50%Q) DEFAULT DEFAULT
    (Some "Please ensure the court is clean").

(** The row of the sample booking, 09:00 to 10:00, inserted at time 0. *)
Definition sample_booking : booking :=
  mk_booking court customer None the_day (make_time 9 0 0) (make_time 10 0 0)
    100 5000 "pending" "pending" (Some "Please ensure the court is clean")
    0 0.

(** [sample_db] after the sample booking was inserted under key 1, and
    after the owner then denied it. *)
Definition booked_db : database :=
  exec (insert_booking 0
          (sample_values 1 (make_time 9 0 0) (make_time 10 0 0) 1))
    sample_db.
Definition denied_db : database :=
  exec (update_booking_status 1 1 (Some "denied")) booked_db.

(** [booked_db] after a second booking of the same court and day, 09:30 to
    10:30, was inserted under key 2. *)
Definition double_booked_db : database :=
  exec (insert_booking 1
          (sample_values 2 (make_time 9 30 0) (make_time 10 30 0) 1))
    booked_db.

(** [booked_db] after a second booking of the same court and day, 10:00 to
    11:00, was inserted under key 2. *)
Definition tiled_db : database :=
  exec (insert_booking 1
          (sample_values 2 (make_time 10 0 0) (make_time 11 0 0) 1))
    booked_db.

(** A request body for the endpoint, and the same with an empty [userId]. *)
Definition sample_body : Routes.js_value :=
  Routes.JObject
    [("userId", Routes.JString "3"); ("facilityId", Routes.JString "1");
     ("courtId", Routes.JString "1"); ("date", Routes.JString "2025-09-26");
     ("timeSlot",
      Routes.JObject [("start", Routes.JString "09:00");
                      ("end", Routes.JString "10:00")]);
     ("totalPrice", Routes.JNumber 50)].

Definition empty_user_body : Routes.js_value :=
  Routes.JObject
    [("userId", Routes.JString ""); ("facilityId", Routes.JString "1");
     ("courtId", Routes.JString "1"); ("date", Routes.JString "2025-09-26");
     ("timeSlot",
      Routes.JObject [("start", Routes.JString "09:00");
                      ("end", Routes.JString "10:00")]);
     ("totalPrice", Routes.JNumber 50)].

(** ** Further properties of the tables *)

(** What the constraints of [bookings] and [booking_notifications] ask of
    every stored row: the foreign keys point at rows and the statuses and
    types are of the [CHECK] lists. *)
Definition constraints_hold (db : database) : Prop :=
  (∀ id b, bookings db !! id = Some b →
     facility_id b ∈ dom (facilities db) ∧ customer_id b ∈ users db
     ∧ (∀ k, time_slot_id b = Some k → k ∈ facility_schedules db)
     ∧ status b ∈ booking_statuses ∧ payment_status b ∈ payment_statuses)
  ∧ (∀ n, n ∈ booking_notifications db →
     n_booking_id n ∈ dom (bookings db) ∧ n_user_id n ∈ users db
     ∧ notification_type n ∈ notification_types).

(** Two versions of a booking that differ at most in [status] and
    [updated_at]. *)
Definition same_reservation (a b : booking) : Prop :=
  facility_id a = facility_id b ∧ customer_id a = customer_id b
  ∧ time_slot_id a = time_slot_id b ∧ booking_date a = booking_date b
  ∧ start_time a = start_time b ∧ end_time a = end_time b
  ∧ total_hours a = total_hours b ∧ total_amount a = total_amount b
  ∧ payment_status a = payment_status b
  ∧ special_requests a = special_requests b ∧ created_at a = created_at b.

(** The text of the notification a new booking sends to the owner. *)
Definition new_booking_message (b : booking) : string :=
  "You have a new booking request for " +:+ date_out (booking_date b)
    +:+ " from " +:+ time_out (start_time b)
    +:+ " to " +:+ time_out (end_time b).

(** 24:00:00, the largest [TIME]. *)
Definition end_of_day : time := make_time 24 0 0.


(** [booked_db] after the customer cancelled the sample booking. *)
Definition cancelled_db : database :=
  exec (update_booking_status 1 1 (Some "cancelled")) booked_db.

(** The values of an insert with other times. *)
Definition set_times (start finish : option time) (v : booking_values)
    : booking_values :=
  mk_booking_values (v_id v) (v_facility_id v) (v_customer_id v)
    (v_time_slot_id v) (v_booking_date v) start finish (v_total_hours v)
    (v_total_amount v) (v_status v) (v_payment_status v)
    (v_special_requests v).

(** [sample_db] after a booking from 10:00 back to 09:00 was inserted under
    key 1. *)
Definition inverted_db : database :=
  exec (insert_booking 0
          (sample_values 1 (make_time 10 0 0) (make_time 9 0 0) 1))
    sample_db.

(** A booking of [court] on [the_day] by the user [u]. *)
Definition values_of (u : uuid) (id : uuid) (start finish : time)
    : booking_values :=
  mk_booking_values id (Some court) (Some u) None (Some the_day)
    (Some start) (Some finish) (Some 1%Q) (Some 50%Q) DEFAULT DEFAULT None.

(** [booked_db] after another user, [admin], booked 09:30 to 10:30 under
    key 2. No policy reads [users.role]: that user is a customer like any
    other. *)
Definition rival_db : database :=
  exec (insert_booking 1 (values_of admin 2 (make_time 9 30 0)
                            (make_time 10 30 0)))
    booked_db.

(** Two facilities for [mockFacilities], and a request body whose [userId]
    is a number. *)
Definition sample_facilities : list Routes.js_value :=
  [Routes.JObject [("id", Routes.JString "1");
                   ("name", Routes.JString "Downtown Basketball Court")];
   Routes.JObject [("id", Routes.JString "2");
                   ("name", Routes.JString "Central Tennis Court")]].

Definition numeric_user_body : Routes.js_value :=
  Routes.JObject
    [("userId", Routes.JNumber 3); ("facilityId", Routes.JString "1");
     ("courtId", Routes.JString "1"); ("date", Routes.JString "2025-09-26");
     ("timeSlot",
      Routes.JObject [("start", Routes.JString "09:00");
                      ("end", Routes.JString "10:00")])].

(** Two bookings for [mockBookings], and two bodies for the profile
    endpoints: one that names two fields, one that also names [userId]. *)
Definition sample_bookings : list Routes.js_value :=
  [Routes.JObject [("id", Routes.JString "1"); ("userId", Routes.JString "1")];
   Routes.JObject [("id", Routes.JString "2"); ("userId", Routes.JString "2")]].

Definition phone_update : Routes.js_value :=
  Routes.JObject [("phone", Routes.JString "555-0100");
                  ("nickname", Routes.JString "JD")].

Definition user_id_update : Routes.js_value :=
  Routes.JObject [("userId", Routes.JString "1");
                  ("phone", Routes.JString "555-0100")].

(** ** The view [facility_stats] (section 26 of the migration) *)

(** The columns of [facility_reviews] the view reads. [status] has a
    default but may be [NULL]. *)
Record facility_review := mk_facility_review {
  r_facility_id : uuid;
  rating : Z;
  r_status : option string
}.

(** [l LEFT JOIN r ON on]: each row of [l] with each row of [r] that
    matches it, or once with [NULL]s when none does. *)
Definition left_join {A B} (on : A → B → bool) (l : list A) (r : list B)
    : list (A * option B) :=
  l ≫= λ a, match List.filter (on a) r with
            | [] => [(a, None)]
            | matches => (λ b, (a, Some b)) <$> matches
            end.

(** [COUNT(CASE WHEN p THEN 1 END)] and [SUM(g)] over the rows of a group. *)
Definition count_rows {A} (p : A → bool) (rows : list A) : nat :=
  length (List.filter p rows).
Definition sum_rows {A} (g : A → Z) (rows : list A) : Z :=
  foldr (λ a s, (g a + s)%Z) 0%Z rows.

(** The rows the view groups for the facility [f] with key [id]:
    [facilities f LEFT JOIN users u ON f.owner_id = u.id::text LEFT JOIN
    bookings b ON f.id = b.facility_id LEFT JOIN facility_reviews r ON f.id =
    r.facility_id AND r.status = 'active']. The model does not keep the text
    of [owner_id], so the first comparison is the parameter
    [owner_text_is]. *)
Definition facility_stats_rows (owner_text_is : facility → uuid → bool)
    (db : database) (reviews : list facility_review) (id : uuid)
    (f : facility)
    : list ((uuid * facility) * option uuid * option (uuid * booking)
            * option facility_review) :=
  let fu :=
    left_join (λ f u, owner_text_is f.2 u) [(id, f)] (elements (users db)) in
  let fub :=
    left_join (λ row b, bool_decide (row.1.1 = facility_id b.2)) fu
      (map_to_list (bookings db)) in
  left_join
    (λ row r, bool_decide (row.1.1.1 = r_facility_id r)
              && is_true (sql_eq (r_status r) (Some "active")))
    fub reviews.

(** The aggregates of a row of the view; the amounts are hundredths. *)
Record facility_stats_row := mk_facility_stats_row {
  total_bookings : nat;
  completed_bookings : nat;
  cancelled_bookings : nat;
  total_revenue : Z;
  average_rating : Q;
  total_reviews : nat;
  positive_reviews : nat
}.

Definition booking_has (p : booking → bool)
    (b : option (uuid * booking)) : bool :=
  match b with
  | Some kb => p kb.2
  | None => false
  end.

Definition review_has (p : facility_review → bool)
    (r : option facility_review) : bool :=
  match r with
  | Some r => p r
  | None => false
  end.

(** The amount a booking adds to [total_revenue]. *)
Definition revenue (b : booking) : Z :=
  if bool_decide (status b ∈ ["approved"; "completed"]) then total_amount b
  else 0.

(** The aggregates of the view over the rows of a group. [AVG] of an
    [INTEGER] column is the [NUMERIC] quotient of the sum by the count of
    the values that are not [NULL], and [NULL] when there is none. *)
Definition aggregate
    (rows : list ((uuid * facility) * option uuid * option (uuid * booking)
                  * option facility_review)) : facility_stats_row :=
  let rated := count_rows (λ row, review_has (λ _, true) row.2) rows in
  mk_facility_stats_row
    (count_rows (λ row, booking_has (λ _, true) row.1.2) rows)
    (count_rows (λ row,
                   booking_has (λ b, bool_decide (status b = "completed"))
                     row.1.2) rows)
    (count_rows (λ row,
                   booking_has (λ b, bool_decide (status b = "cancelled"))
                     row.1.2) rows)
    (sum_rows (λ row, match row.1.2 with
                      | Some kb => revenue kb.2
                      | None => 0%Z
                      end) rows)
    (if bool_decide (rated = 0%nat) then 0%Q
     else numeric_value
            (numeric_div
               (mk_numeric (sum_rows (λ row, match row.2 with
                                             | Some r => rating r
                                             | None => 0%Z
                                             end) rows) 0)
               (mk_numeric (Z.of_nat rated) 0)))
    rated
    (count_rows (λ row, review_has (λ r, (4 <=? rating r)%Z) row.2) rows).

(** The row of [facility_stats] for the facility with key [id], if there is
    one. *)
Definition facility_stats (owner_text_is : facility → uuid → bool)
    (db : database) (reviews : list facility_review) (id : uuid)
    : option facility_stats_row :=
  f ← facilities db !! id;
  Some (aggregate (facility_stats_rows owner_text_is db reviews id f)).

(** The bookings of a facility, as [bookings] lists them, and its active
    reviews. *)
Definition bookings_of (db : database) (id : uuid) : list (uuid * booking) :=
  List.filter (λ kb, bool_decide (facility_id kb.2 = id))
    (map_to_list (bookings db)).

Definition active_reviews_of (reviews : list facility_review) (id : uuid)
    : list facility_review :=
  List.filter (λ r, bool_decide (r_facility_id r = id)
                    && bool_decide (r_status r = Some "active")) reviews.

(** Two active reviews of [court], and one that is hidden. *)
Definition sample_reviews : list facility_review :=
  [mk_facility_review court 5 (Some "active");
   mk_facility_review court 4 (Some "active");
   mk_facility_review court 1 (Some "hidden")].

(** Three active reviews of [court] whose mean, 13/3, has no finite decimal
    expansion. *)
Definition uneven_reviews : list facility_review :=
  [mk_facility_review court 5 (Some "active");
   mk_facility_review court 4 (Some "active");
   mk_facility_review court 4 (Some "active")].

(** * Theorems *)

(** ** The conflict check *)

Lemma is_true_and a b : is_true (a AND b) = is_true a && is_true b.
Proof. by destruct a as [[]|], b as [[]|]. Qed.

Lemma is_true_or a b : is_true (a OR b) = is_true a || is_true b.
Proof. by destruct a as [[]|], b as [[]|]. Qed.

(** On times that are not [NULL] the overlap condition is the half-open
    test: the row starts before the query ends and ends after it starts. *)
Lemma overlap_condition_times s1 e1 s2 e2 :
  is_true (overlap_condition (Some s1) (Some e1) (Some s2) (Some e2))
  = (s1 <? e2) && (s2 <? e1).
Proof.
  unfold overlap_condition. rewrite is_true_or, !is_true_and. simpl.
  destruct (s1 <? e2), (s2 <? e1); reflexivity.
Qed.

Lemma is_true_Some b : is_true (Some b) = b.
Proof. by destruct b. Qed.

(** [p_exclude_booking_id IS NULL OR id != p_exclude_booking_id]. *)
Lemma not_excluded_true (x : option uuid) (id : uuid) :
  is_true (sql_is_null x OR sql_ne (Some id) x) = true ↔ x ≠ Some id.
Proof.
  rewrite is_true_or. destruct x as [y|]; [|done].
  unfold sql_ne, sql_cmp, sql_is_null. rewrite !is_true_Some. simpl.
  rewrite negb_true_iff, bool_decide_eq_false. naive_solver.
Qed.

Lemma conflict_where_true f d s e x id b :
  is_true (conflict_where (Some f) (Some d) (Some s) (Some e) x id b) = true
  ↔ facility_id b = f ∧ booking_date b = d ∧ active b ∧ x ≠ Some id
    ∧ start_time b < e ∧ s < end_time b.
Proof.
  unfold conflict_where, active.
  rewrite !is_true_and, overlap_condition_times, !andb_true_iff.
  rewrite not_excluded_true, !N.ltb_lt.
  unfold sql_eq, sql_in, sql_cmp. rewrite !is_true_Some, !bool_decide_eq_true.
  rewrite !elem_of_cons, elem_of_nil. tauto.
Qed.

(** The policies, read off: a row is shown to a session whose role is
    exempt, to the customer of the booking, to the owner of its facility
    and to the service role. *)
Lemma bookings_visible_true o c db b :
  bookings_visible o c db b = true
  ↔ bypass_rls c = true
    ∨ auth_uid c = Some (customer_id b)
    ∨ (∃ f u, facilities db !! facility_id b = Some f ∧ auth_uid c = Some u
              ∧ o f u = true)
    ∨ auth_role c = Some "service_role".
Proof.
  unfold bookings_visible, bookings_select_policies.
  rewrite orb_true_iff, !is_true_or, !orb_true_iff.
  unfold sql_eq, sql_cmp. rewrite is_true_Some.
  assert (is_true
            match auth_uid c with
            | Some x => Some (bool_decide (x = customer_id b))
            | None => None
            end = true ↔ auth_uid c = Some (customer_id b)) as ->.
  { destruct (auth_uid c) as [u|]; [|done].
    rewrite is_true_Some, bool_decide_eq_true. split; congruence. }
  assert (is_true
            match auth_role c with
            | Some x => Some (bool_decide (x = "service_role"))
            | None => None
            end = true ↔ auth_role c = Some "service_role") as ->.
  { destruct (auth_role c) as [r|]; [|done].
    rewrite is_true_Some, bool_decide_eq_true. split; congruence. }
  assert (match facilities db !! facility_id b with
          | Some f => match auth_uid c with
                      | Some u => o f u
                      | None => false
                      end
          | None => false
          end = true
          ↔ ∃ f u, facilities db !! facility_id b = Some f
                   ∧ auth_uid c = Some u ∧ o f u = true) as ->.
  { destruct (facilities db !! facility_id b) as [f|],
      (auth_uid c) as [u|]; split; try done;
      try (intros (? & ? & ? & ? & ?); congruence).
    intros Ho. by exists f, u. }
  tauto.
Qed.

(** What a session is shown does not depend on the stored bookings. *)
Lemma bookings_visible_facilities o c db db' b :
  facilities db' = facilities db →
  bookings_visible o c db' b = bookings_visible o c db b.
Proof.
  intros Hf. unfold bookings_visible, bookings_select_policies.
  by rewrite Hf.
Qed.

(** Nor on the status or the times of the row. *)
Lemma bookings_visible_same_reservation o c db a b :
  facility_id a = facility_id b → customer_id a = customer_id b →
  bookings_visible o c db a = bookings_visible o c db b.
Proof.
  intros Hf Hc. unfold bookings_visible, bookings_select_policies.
  by rewrite Hf, Hc.
Qed.

Lemma check_booking_conflicts_true o c f d s e x db :
  check_booking_conflicts o c f d s e x db = true
  ↔ ∃ id b, bookings db !! id = Some b
            ∧ bookings_visible o c db b = true
            ∧ is_true (conflict_where f d s e x id b) = true.
Proof.
  unfold check_booking_conflicts, select_bookings.
  rewrite existsb_exists. split.
  - intros [[id b] [Hin Hw]]. apply List.filter_In in Hin as [Hin Hvis].
    exists id, b. split; [|done].
    by apply elem_of_map_to_list, list_elem_of_In.
  - intros (id & b & Hb & Hvis & Hw). exists (id, b). split; [|done].
    apply List.filter_In. split; [|done].
    by apply list_elem_of_In, elem_of_map_to_list.
Qed.

Lemma check_booking_conflicts_false o c f d s e x db :
  check_booking_conflicts o c f d s e x db = false
  ↔ ∀ id b, bookings db !! id = Some b
            → bookings_visible o c db b = true
            → is_true (conflict_where f d s e x id b) = false.
Proof.
  rewrite <-not_true_iff_false, check_booking_conflicts_true. split.
  - intros H id b Hb Hvis. apply not_true_iff_false. intros Hw.
    apply H. by exists id, b.
  - intros H (id & b & Hb & Hvis & Hw). rewrite (H id b Hb Hvis) in Hw. done.
Qed.

(** The row with the excluded key never counts. *)
Lemma conflict_where_excluded f d s e id b :
  is_true (conflict_where f d s e (Some id) id b) = false.
Proof.
  unfold conflict_where. rewrite !is_true_and.
  assert (is_true (sql_is_null (Some id) OR sql_ne (Some id) (Some id))
          = false) as ->.
  { apply not_true_iff_false. rewrite not_excluded_true. naive_solver. }
  by rewrite andb_false_r.
Qed.

(** C2, as the code has it. [check_booking_conflicts] is true exactly when
    some stored booking that is shown to the caller has the facility and the
    date of the query, status pending or approved, a key other than the
    excluded one (if one is given), and [start_time < p_end_time] and
    [end_time > p_start_time]. For a booking [A] stored under key [X], the
    query for [A]'s own interval with [X] excluded leaves [A] itself out: it
    is true exactly when another such booking meets the interval of [A]. So
    it is false when [A] is the only booking stored, and when [A] is
    pending or approved in a table without overlaps. *)
Theorem check_booking_conflicts_spec owner_text_is caller f d s e x db X A :
  (check_booking_conflicts owner_text_is caller (Some f) (Some d) (Some s)
     (Some e) x db = true
   ↔ ∃ id b, bookings db !! id = Some b
             ∧ bookings_visible owner_text_is caller db b = true
             ∧ facility_id b = f ∧ booking_date b = d
             ∧ (status b = "pending" ∨ status b = "approved")
             ∧ x ≠ Some id
             ∧ start_time b < e ∧ end_time b > s)
  ∧ (check_booking_conflicts owner_text_is caller (Some (facility_id A))
       (Some (booking_date A)) (Some (start_time A)) (Some (end_time A))
       (Some X) (set_bookings (<[X := A]> (bookings db)) db) = true
     ↔ ∃ id b, id ≠ X ∧ bookings db !! id = Some b
               ∧ bookings_visible owner_text_is caller db b = true
               ∧ facility_id b = facility_id A
               ∧ booking_date b = booking_date A
               ∧ (status b = "pending" ∨ status b = "approved")
               ∧ start_time b < end_time A ∧ end_time b > start_time A)
  ∧ check_booking_conflicts owner_text_is caller (Some (facility_id A))
      (Some (booking_date A)) (Some (start_time A)) (Some (end_time A))
      (Some X) (set_bookings {[X := A]} db)
    = false
  ∧ (active A → no_overlap (<[X := A]> (bookings db)) →
     check_booking_conflicts owner_text_is caller (Some (facility_id A))
       (Some (booking_date A)) (Some (start_time A)) (Some (end_time A))
       (Some X) (set_bookings (<[X := A]> (bookings db)) db)
     = false).
Proof.
  split; [|split; [|split]].
  - rewrite check_booking_conflicts_true.
    setoid_rewrite conflict_where_true. unfold active.
    split; intros (id & b & H); exists id, b; intuition lia.
  - rewrite check_booking_conflicts_true.
    setoid_rewrite conflict_where_true. unfold active. cbn [bookings set_bookings].
    split.
    + intros (id & b & Hb & Hvis & Hf & Hd & Hact & Hx & Hlt1 & Hlt2).
      assert (id ≠ X) as Hne by congruence.
      rewrite lookup_insert_ne in Hb by done.
      exists id, b. repeat split; try done. lia.
    + intros (id & b & Hne & Hb & Hvis & Hf & Hd & Hact & Hlt1 & Hlt2).
      exists id, b. rewrite lookup_insert_ne by done.
      repeat split; try done; [congruence|lia].
  - apply check_booking_conflicts_false. simpl. intros id b Hb _.
    apply lookup_singleton_Some in Hb as [<- <-].
    apply conflict_where_excluded.
  - intros Hact Hinv. apply check_booking_conflicts_false.
    cbn [bookings set_bookings]. intros id b Hb _.
    apply not_true_iff_false. rewrite conflict_where_true.
    intros (Hf & Hd & Hactb & Hx & Hlt1 & Hlt2).
    assert (id ≠ X) as Hne by congruence.
    apply (Hinv id X b A); [done|done|apply lookup_insert_eq|done..|].
    by repeat split.
Qed.

(** C2, as the specification has it, fails: in [double_booked_db] the
    sample booking is stored under key 1, and the check for its own
    interval with key 1 excluded is true, because the booking under key 2
    meets it. *)
Lemma own_interval_conflicts_with_another_booking :
  bookings double_booked_db !! 1 = Some sample_booking
  ∧ check_booking_conflicts owner_is (signed_in customer)
      (Some (facility_id sample_booking))
      (Some (booking_date sample_booking))
      (Some (start_time sample_booking)) (Some (end_time sample_booking))
      (Some 1) double_booked_db
    = true.
Proof. split; vm_compute; reflexivity. Qed.

(** A [NULL] facility, date, start or end never matches: the [WHERE] clause
    is then [FALSE] or [NULL] on every row. *)
Lemma overlap_condition_null s1 e1 s2 e2 :
  s2 = None ∨ e2 = None → is_true (overlap_condition s1 e1 s2 e2) = false.
Proof.
  unfold overlap_condition, sql_lt, sql_gt, sql_cmp.
  intros [-> | ->]; destruct s1, e1; try destruct s2; try destruct e2; simpl;
    repeat case_match; reflexivity.
Qed.

Lemma check_booking_conflicts_null o c f d s e x db :
  f = None ∨ d = None ∨ s = None ∨ e = None →
  check_booking_conflicts o c f d s e x db = false.
Proof.
  intros Hnull. apply check_booking_conflicts_false. intros id b _ _.
  unfold conflict_where. rewrite !is_true_and.
  destruct Hnull as [-> | [-> | Htime]].
  - reflexivity.
  - simpl. by rewrite andb_false_r.
  - rewrite overlap_condition_null by done. apply andb_false_r.
Qed.

(** C7. Touching intervals do not conflict: when the only booking stored is
    a pending or approved one over [[a, b)], the check for [[b, c)] on the
    same facility and date is false, for all times [a < b < c] and for
    every caller. *)
Theorem touching_intervals_do_not_conflict owner_text_is caller db id bk a b c
    x :
  a < b → b < c →
  status bk = "pending" ∨ status bk = "approved" →
  start_time bk = a → end_time bk = b →
  bookings db = {[id := bk]} →
  check_booking_conflicts owner_text_is caller (Some (facility_id bk))
    (Some (booking_date bk)) (Some b) (Some c) x db = false.
Proof.
  intros _ _ _ _ Hend Hdb. apply check_booking_conflicts_false.
  intros id' bk' Hbk' _. rewrite Hdb in Hbk'.
  apply lookup_singleton_Some in Hbk' as [<- <-].
  apply not_true_iff_false. rewrite conflict_where_true. lia.
Qed.

Lemma touching_intervals_do_not_conflict_witness :
  check_booking_conflicts owner_is service_role (Some court) (Some the_day)
    (Some (make_time 10 0 0)) (Some (make_time 11 0 0)) None
    (exec (insert_booking 0
             (sample_values 1 (make_time 9 0 0) (make_time 10 0 0) 1))
       sample_db) = false.
Proof.
  apply (touching_intervals_do_not_conflict owner_is service_role
           (exec (insert_booking 0
                    (sample_values 1 (make_time 9 0 0) (make_time 10 0 0) 1))
              sample_db)
           1 sample_booking (make_time 9 0 0) (make_time 10 0 0) (make_time 11 0 0) None);
    [reflexivity | reflexivity | left; reflexivity | reflexivity
    | reflexivity | vm_compute; reflexivity].
Defined.

(** The other side: the check for [[a, b)] against a booking over [[b, c)]
    is false as well. *)
Lemma touching_before_does_not_conflict o c db id bk a b x :
  start_time bk = b → bookings db = {[id := bk]} →
  check_booking_conflicts o c (Some (facility_id bk)) (Some (booking_date bk))
    (Some a) (Some b) x db = false.
Proof.
  intros Hstart Hdb. apply check_booking_conflicts_false.
  intros id' bk' Hbk' _. rewrite Hdb in Hbk'.
  apply lookup_singleton_Some in Hbk' as [<- <-].
  apply not_true_iff_false. rewrite conflict_where_true. lia.
Qed.

(** C8. The overlap test is symmetric: with [(s1, e1)] as the stored booking
    and [(s2, e2)] as the query it gives what it gives with the roles
    swapped, [NULL]s included. *)
Theorem overlap_condition_sym s1 e1 s2 e2 :
  overlap_condition s1 e1 s2 e2 = overlap_condition s2 e2 s1 e1.
Proof.
  unfold overlap_condition, sql_lt, sql_gt, sql_cmp.
  destruct s1 as [s1|], e1 as [e1|], s2 as [s2|], e2 as [e2|]; simpl;
    try reflexivity; repeat case_match; reflexivity.
Qed.

(** ** Durations *)

Local Open Scope Z_scope.

(** *** Decimal digits *)

Lemma decimal_digits_upto_spec fuel u :
  0 < u < 2 ^ Z.of_nat fuel →
  10 ^ (decimal_digits_upto fuel u - 1) ≤ u < 10 ^ decimal_digits_upto fuel u.
Proof.
  revert u. induction fuel as [|fuel IH]; intros u [Hpos Hlt].
  { simpl in Hlt. lia. }
  cbn [decimal_digits_upto]. destruct (Z.ltb_spec u 10) as [Hu|Hu].
  { simpl. lia. }
  assert (0 < u / 10 < 2 ^ Z.of_nat fuel) as Hrec.
  { split; [apply Z.div_str_pos; lia|].
    apply Z.div_lt_upper_bound; [lia|].
    rewrite Nat2Z.inj_succ, Z.pow_succ_r in Hlt by lia.
    pose proof (Z.pow_pos_nonneg 2 (Z.of_nat fuel) ltac:(lia) ltac:(lia)).
    lia. }
  specialize (IH _ Hrec). set (n := decimal_digits_upto fuel (u / 10)) in *.
  assert (0 < n).
  { destruct (Z.lt_trichotomy n 0) as [Hn|[Hn|Hn]]; [| |lia].
    - rewrite (Z.pow_neg_r 10 n) in IH by lia. lia.
    - rewrite Hn in IH. simpl in IH. lia. }
  replace (1 + n - 1) with (Z.succ (n - 1)) by lia.
  replace (1 + n) with (Z.succ n) by lia.
  rewrite !Z.pow_succ_r by lia.
  pose proof (Z.div_mod u 10 ltac:(lia)) as Hdm.
  pose proof (Z.mod_pos_bound u 10 ltac:(lia)) as Hmod.
  lia.
Qed.

Lemma decimal_digits_spec u :
  0 < u → 10 ^ (decimal_digits u - 1) ≤ u < 10 ^ decimal_digits u.
Proof.
  intros Hu. apply decimal_digits_upto_spec. split; [done|].
  rewrite Nat2Z.inj_succ, Z2Nat.id by apply Z.log2_nonneg.
  apply Z.log2_spec. done.
Qed.

Lemma decimal_digits_pos u : 0 < u → 0 < decimal_digits u.
Proof.
  intros Hu. pose proof (decimal_digits_spec u Hu) as [_ Hlt].
  destruct (Z.lt_trichotomy (decimal_digits u) 0) as [Hn|[Hn|Hn]]; [| |lia].
  - rewrite Z.pow_neg_r in Hlt by lia. lia.
  - rewrite Hn in Hlt. simpl in Hlt. lia.
Qed.

(** A number below [10 ^ n] has at most [n] digits. *)
Lemma decimal_digits_le u n :
  0 < u → 0 ≤ n → u < 10 ^ n → decimal_digits u ≤ n.
Proof.
  intros Hu Hn Hlt. pose proof (decimal_digits_spec u Hu) as [Hle _].
  pose proof (decimal_digits_pos u Hu).
  destruct (Z.le_gt_cases (decimal_digits u) n) as [|Hgt]; [done|].
  assert (10 ^ n ≤ 10 ^ (decimal_digits u - 1)).
  { apply Z.pow_le_mono_r; lia. }
  lia.
Qed.

Lemma decimal_digits_ge u n :
  0 < u → 0 ≤ n → 10 ^ n ≤ u → n < decimal_digits u.
Proof.
  intros Hu Hn Hle. pose proof (decimal_digits_spec u Hu) as [_ Hlt].
  destruct (Z.lt_ge_cases n (decimal_digits u)) as [|Hge]; [done|].
  pose proof (decimal_digits_pos u Hu).
  assert (10 ^ decimal_digits u ≤ 10 ^ n).
  { apply Z.pow_le_mono_r; lia. }
  lia.
Qed.

(** *** Rounding *)

Lemma round_div_close n d :
  0 < d → Z.abs (2 * d * round_div n d - 2 * n) ≤ d.
Proof.
  intros Hd. unfold round_div.
  pose proof (Z.div_mod (2 * Z.abs n + d) (2 * d) ltac:(lia)) as Hdiv.
  pose proof (Z.mod_pos_bound (2 * Z.abs n + d) (2 * d) ltac:(lia)) as Hmod.
  set (k := (2 * Z.abs n + d) / (2 * d)) in *.
  destruct (Z.sgn_spec n) as [[Hn ->] | [[Hn ->] | [Hn ->]]]; nia.
Qed.

Lemma round_div_opp n d : round_div (- n) d = - round_div n d.
Proof. unfold round_div. rewrite Z.sgn_opp, Z.abs_opp. lia. Qed.

Lemma round_div_zero d : round_div 0 d = 0.
Proof. reflexivity. Qed.

Lemma round_div_exact n d : 0 < d → (d | n) → round_div n d * d = n.
Proof.
  intros Hd [k ->]. unfold round_div.
  rewrite Z.abs_mul, (Z.abs_eq d) by lia.
  replace (2 * (Z.abs k * d) + d) with (d + Z.abs k * (2 * d)) by lia.
  rewrite Z.div_add by lia. rewrite (Z.div_small d (2 * d)) by lia.
  rewrite Z.sgn_mul, (Z.sgn_pos d) by lia.
  destruct (Z.sgn_spec k) as [[Hk ->] | [[Hk ->] | [Hk ->]]]; lia.
Qed.

Lemma round_div_pos n d : 0 < d → 0 < round_div n d ↔ d ≤ 2 * n.
Proof.
  intros Hd. unfold round_div.
  pose proof (Z.div_mod (2 * Z.abs n + d) (2 * d) ltac:(lia)) as Hdiv.
  pose proof (Z.mod_pos_bound (2 * Z.abs n + d) (2 * d) ltac:(lia)) as Hmod.
  set (k := (2 * Z.abs n + d) / (2 * d)) in *.
  assert (0 ≤ k) by (apply Z.div_pos; lia).
  destruct (Z.sgn_spec n) as [[Hn ->] | [[Hn ->] | [Hn ->]]]; nia.
Qed.

Lemma pow10_pos k : 0 < 10 ^ Z.of_N k.
Proof. apply Z.pow_pos_nonneg; lia. Qed.

Lemma Zpos_pow10 k : Z.pos (Z.to_pos (10 ^ Z.of_N k)) = 10 ^ Z.of_N k.
Proof. apply Z2Pos.id, pow10_pos. Qed.

(** The value of a rounded quotient is within half a unit of the last place. *)
Lemma round_at_close k q :
  (Qabs (numeric_value (mk_numeric (round_at k q) k) - q)
   <= 1 # (2 * Z.to_pos (10 ^ Z.of_N k)))%Q.
Proof.
  destruct q as [n d]. unfold numeric_value, round_at. cbn [unscaled dscale Qnum Qden].
  pose proof (pow10_pos k) as Hp. set (P := 10 ^ Z.of_N k) in *.
  pose proof (round_div_close (n * P) (Z.pos d) ltac:(lia)) as Hclose.
  set (r := round_div (n * P) (Z.pos d)) in *.
  apply Qabs_Qle_condition.
  unfold Qle, Qminus, Qplus, Qopp. cbn [Qnum Qden].
  rewrite !Pos2Z.inj_mul, !Z2Pos.id by lia. fold P.
  split; nia.
Qed.

(** *** Scale of a quotient *)

Lemma select_div_scale_ge var1 var2 :
  (numeric_weight var1 - numeric_weight var2
   - (if first_digit var1 <=? first_digit var2 then 1 else 0) ≤ 0) →
  (16 ≤ select_div_scale var1 var2)%N.
Proof. intros Hq. unfold select_div_scale. lia. Qed.

Lemma select_div_scale_dscale var1 var2 :
  (N.min (dscale var1) 1000 ≤ select_div_scale var1 var2)%N.
Proof. unfold select_div_scale. lia. Qed.

(** Weight and first digit of a positive integer. *)
Lemma integer_weight_spec x :
  0 < x →
  0 ≤ numeric_weight (mk_numeric x 0)
  ∧ 10 ^ (4 * numeric_weight (mk_numeric x 0)) ≤ x
    < 10 ^ (4 * numeric_weight (mk_numeric x 0) + 4)
  ∧ first_digit (mk_numeric x 0)
    = x / 10 ^ (4 * numeric_weight (mk_numeric x 0)).
Proof.
  intros Hx. unfold first_digit, numeric_weight. cbn [unscaled dscale].
  rewrite (proj2 (Z.eqb_neq x 0)) by lia. rewrite (Z.abs_eq x) by lia.
  pose proof (decimal_digits_spec x Hx) as [Hlo Hhi].
  pose proof (decimal_digits_pos x Hx) as Hnd.
  set (nd := decimal_digits x) in *. change (Z.of_N 0) with 0.
  rewrite Z.sub_0_r, Z.add_0_l.
  pose proof (Z.div_mod (nd - 1) 4 ltac:(lia)) as Hdm.
  pose proof (Z.mod_pos_bound (nd - 1) 4 ltac:(lia)) as Hmod.
  set (w := (nd - 1) / 4) in *.
  assert (0 ≤ w) as Hw by lia.
  split; [done|]. split.
  - split.
    + etransitivity; [|exact Hlo]. apply Z.pow_le_mono_r; lia.
    + eapply Z.lt_le_trans; [exact Hhi|]. apply Z.pow_le_mono_r; lia.
  - rewrite (proj2 (Z.leb_le 0 (4 * w))) by lia. done.
Qed.

(** A quotient between 1 and 5 has sixteen decimal places or more. *)
Lemma select_div_scale_ratio S C :
  0 < C → C ≤ S → S ≤ 5 * C →
  (16 ≤ select_div_scale (mk_numeric S 0) (mk_numeric C 0))%N.
Proof.
  intros HC HCS HS5. apply select_div_scale_ge.
  destruct (integer_weight_spec S ltac:(lia)) as (Hw1 & [Hlo1 Hhi1] & ->).
  destruct (integer_weight_spec C HC) as (Hw2 & [Hlo2 Hhi2] & ->).
  set (w1 := numeric_weight (mk_numeric S 0)) in *.
  set (w2 := numeric_weight (mk_numeric C 0)) in *.
  destruct (Z.le_gt_cases w1 w2) as [Hle|Hgt].
  { destruct (_ <=? _); lia. }
  assert (w1 = w2 + 1) as Hw.
  { destruct (Z.le_gt_cases w1 (w2 + 1)) as [|Hgt2]; [lia|].
    assert (10 ^ (4 * w2 + 8) ≤ 10 ^ (4 * w1)) by (apply Z.pow_le_mono_r; lia).
    replace (4 * w2 + 8) with (4 * w2 + 4 + 4) in * by lia.
    rewrite (Z.pow_add_r 10 (4 * w2 + 4) 4) in * by lia.
    change (10 ^ 4) with 10000 in *. lia. }
  assert (0 < 10 ^ (4 * w2)) as Hp by (apply Z.pow_pos_nonneg; lia).
  replace (4 * w1) with (4 * w2 + 4) in * by lia.
  rewrite (Z.pow_add_r 10 (4 * w2) 4) in * by lia.
  change (10 ^ 4) with 10000 in *. set (P := 10 ^ (4 * w2)) in *.
  assert (S / (P * 10000) ≤ 4).
  { apply Z.lt_succ_r. apply Z.div_lt_upper_bound; lia. }
  assert (2000 ≤ C / P).
  { apply Z.div_le_lower_bound; lia. }
  rewrite (proj2 (Z.leb_le _ _)) by lia. lia.
Qed.

Lemma duration_value i :
  numeric_value (numeric_div (extract_epoch i) (mk_numeric 36000 1))
  = Qmake (round_div (i * 10 * 10 ^ Z.of_N (duration_scale i)) 36000000000)
      (Z.to_pos (10 ^ Z.of_N (duration_scale i))).
Proof. reflexivity. Qed.

Lemma duration_scale_opp i : duration_scale (- i) = duration_scale i.
Proof.
  unfold duration_scale, select_div_scale, first_digit, numeric_weight,
    extract_epoch. cbn [unscaled dscale].
  rewrite Z.abs_opp. by destruct (Z.eqb_spec i 0), (Z.eqb_spec (- i) 0); try lia.
Qed.

Lemma duration_scale_min i : (6 ≤ duration_scale i)%N.
Proof.
  pose proof (select_div_scale_dscale (extract_epoch i) (mk_numeric 36000 1)).
  unfold duration_scale. simpl in *. lia.
Qed.

Lemma duration_scale_day i :
  Z.abs i ≤ 86400000000 → (16 ≤ duration_scale i)%N.
Proof.
  intros Hi. apply select_div_scale_ge.
  change (numeric_weight (mk_numeric 36000 1)) with 0.
  change (first_digit (mk_numeric 36000 1)) with 3600.
  unfold first_digit, numeric_weight, extract_epoch. cbn [unscaled dscale].
  destruct (Z.eqb_spec i 0) as [->|Hne]; [simpl; lia|].
  assert (0 < Z.abs i) as Hpos by lia.
  pose proof (decimal_digits_le (Z.abs i) 11 Hpos ltac:(lia) ltac:(lia)) as Hnd.
  pose proof (decimal_digits_pos (Z.abs i) Hpos) as Hnd0.
  set (nd := decimal_digits (Z.abs i)) in *. change (Z.of_N 6) with 6.
  pose proof (Z.div_mod (nd - 1 - 6) 4 ltac:(lia)) as Hdm.
  pose proof (Z.mod_pos_bound (nd - 1 - 6) 4 ltac:(lia)) as Hmod.
  set (w := (nd - 1 - 6) / 4) in *.
  assert (w ≤ 1) by lia.
  destruct (Z.le_gt_cases w 0) as [Hw|Hw].
  { destruct (_ <=? 3600); lia. }
  assert (w = 1) as -> by lia.
  change (0 <=? 6 + 4 * 1) with true. cbv iota.
  assert (Z.abs i / 10 ^ (6 + 4 * 1) ≤ 8).
  { apply Z.lt_succ_r. apply Z.div_lt_upper_bound; [done|].
    change (10 ^ (6 + 4 * 1)) with 10000000000. lia. }
  rewrite (proj2 (Z.leb_le _ 3600)) by lia. lia.
Qed.

Lemma pow10_ge (a b : N) : (a ≤ b)%N → 10 ^ Z.of_N a ≤ 10 ^ Z.of_N b.
Proof. intros. apply Z.pow_le_mono_r; lia. Qed.

(** The duration as a rounded integer. *)
Lemma duration_round_pos i :
  0 < round_div (i * 10 * 10 ^ Z.of_N (duration_scale i)) 36000000000
  ↔ 0 < i.
Proof.
  rewrite round_div_pos by done.
  pose proof (pow10_pos (duration_scale i)) as Hp.
  pose proof (pow10_ge 6 _ (duration_scale_min i)) as H6.
  change (10 ^ Z.of_N 6) with 1000000 in H6.
  split; [nia|]. intros Hi.
  destruct (Z.le_gt_cases 1800 i) as [Hbig|Hsmall]; [nia|].
  pose proof (pow10_ge 16 _ (duration_scale_day i ltac:(lia))) as H16.
  change (10 ^ Z.of_N 16) with 10000000000000000 in H16. nia.
Qed.

Lemma duration_round_opp i :
  round_div (- i * 10 * 10 ^ Z.of_N (duration_scale (- i))) 36000000000
  = - round_div (i * 10 * 10 ^ Z.of_N (duration_scale i)) 36000000000.
Proof.
  rewrite duration_scale_opp, <-round_div_opp. f_equal. lia.
Qed.

Lemma duration_sign p_start_time p_end_time :
  ((0 < calculate_booking_duration p_start_time p_end_time)%Q
   ↔ (p_start_time < p_end_time)%N)
  ∧ ((calculate_booking_duration p_start_time p_end_time == 0)%Q
     ↔ p_start_time = p_end_time).
Proof.
  unfold calculate_booking_duration. rewrite duration_value.
  set (i := time_mi_time p_end_time p_start_time).
  assert ((p_start_time < p_end_time)%N ↔ 0 < i) as -> by (unfold i, time_mi_time; lia).
  assert (p_start_time = p_end_time ↔ i = 0) as -> by (unfold i, time_mi_time; lia).
  unfold Qlt, Qeq. cbn [Qnum Qden]. rewrite !Z.mul_1_r, Z.mul_0_l.
  pose proof (duration_round_pos i) as Hpos.
  pose proof (duration_round_pos (- i)) as Hneg.
  rewrite duration_round_opp in Hneg.
  set (r := round_div _ _) in *.
  split; [exact Hpos|]. split.
  - intros Hr. lia.
  - intros ->. subst r. reflexivity.
Qed.

(** The elapsed seconds divided by 3600, exactly. *)
Lemma exact_hours p_start_time p_end_time :
  ((seconds p_end_time - seconds p_start_time) / 3600
   == Qmake (time_mi_time p_end_time p_start_time) 3600000000)%Q.
Proof.
  unfold seconds, time_mi_time, Qeq, Qdiv, Qmult, Qinv, Qminus, Qplus, Qopp.
  simpl. lia.
Qed.

Lemma duration_quotient i :
  (numeric_value (extract_epoch i) / numeric_value (mk_numeric 36000 1)
   == Qmake i 3600000000)%Q.
Proof. unfold Qeq. simpl. lia. Qed.

Lemma day_interval (p_start_time p_end_time : time) :
  (p_start_time ≤ end_of_day)%N → (p_end_time ≤ end_of_day)%N →
  Z.abs (time_mi_time p_end_time p_start_time) ≤ 86400000000.
Proof. unfold end_of_day, make_time, time_mi_time. simpl. lia. Qed.

Lemma half_unit_le (a b : N) :
  (a ≤ b)%N →
  (1 # (2 * Z.to_pos (10 ^ Z.of_N b)) <= 1 # (2 * Z.to_pos (10 ^ Z.of_N a)))%Q.
Proof.
  intros Hab. unfold Qle. cbn [Qnum Qden].
  rewrite !Pos2Z.inj_mul, !Zpos_pow10. pose proof (pow10_ge a b Hab). lia.
Qed.

(** The duration is the quotient rounded to the selected scale. *)
Lemma duration_rounded p_start_time p_end_time :
  (Qabs (calculate_booking_duration p_start_time p_end_time
         - (seconds p_end_time - seconds p_start_time) / 3600)
   <= 1 # (2 * Z.to_pos
                  (10 ^ Z.of_N (duration_scale
                                  (time_mi_time p_end_time p_start_time)))))%Q.
Proof.
  unfold calculate_booking_duration, numeric_div.
  set (i := time_mi_time p_end_time p_start_time).
  rewrite exact_hours. fold i. rewrite <-(duration_quotient i).
  apply round_at_close.
Qed.

Lemma duration_close p_start_time p_end_time :
  (p_start_time ≤ end_of_day)%N → (p_end_time ≤ end_of_day)%N →
  (Qabs (calculate_booking_duration p_start_time p_end_time
         - (seconds p_end_time - seconds p_start_time) / 3600)
   <= 5 # 100000000000000000)%Q.
Proof.
  intros Hs He. unfold calculate_booking_duration, numeric_div.
  set (i := time_mi_time p_end_time p_start_time).
  rewrite exact_hours. fold i. rewrite <-(duration_quotient i).
  eapply Qle_trans; [apply round_at_close|].
  eapply Qle_trans;
    [apply (half_unit_le 16), (duration_scale_day i), day_interval; done|].
  discriminate.
Qed.

Lemma nine_divides_pow10 (r : N) i : (9 | 10 ^ Z.of_N r * i) → (9 | i).
Proof.
  induction r as [|r IH] using N.peano_ind.
  { by rewrite Z.mul_1_l. }
  rewrite N2Z.inj_succ, Z.pow_succ_r, <-Z.mul_assoc by lia.
  intros H. apply IH. by apply (Z.gauss 9 10).
Qed.

Lemma duration_exact p_start_time p_end_time :
  (p_start_time ≤ end_of_day)%N → (p_end_time ≤ end_of_day)%N →
  (calculate_booking_duration p_start_time p_end_time
   == (seconds p_end_time - seconds p_start_time) / 3600)%Q
  ↔ (9 | time_mi_time p_end_time p_start_time).
Proof.
  intros Hs He. rewrite exact_hours.
  unfold calculate_booking_duration. rewrite duration_value.
  set (i := time_mi_time p_end_time p_start_time).
  pose proof (duration_scale_day i (day_interval _ _ Hs He)) as Hr.
  set (r := duration_scale i) in *.
  unfold Qeq. cbn [Qnum Qden]. rewrite Zpos_pow10.
  pose proof (pow10_pos r) as Hp.
  assert (10 ^ Z.of_N r = 10 ^ 16 * 10 ^ (Z.of_N r - 16)) as Hsplit.
  { rewrite <-Z.pow_add_r by lia. f_equal. lia. }
  set (R := round_div _ _). split.
  - intros HR. apply (nine_divides_pow10 r).
    exists (R * 400000000). lia.
  - intros [t Ht].
    assert (R * 36000000000 = i * 10 * 10 ^ Z.of_N r) as Hex; [|lia].
    apply round_div_exact; [done|].
    exists (t * 25000000 * 10 ^ (Z.of_N r - 16)). rewrite Hsplit, Ht.
    change (10 ^ 16) with 10000000000000000. lia.
Qed.

Lemma duration_opp a b :
  (calculate_booking_duration b a == - calculate_booking_duration a b)%Q.
Proof.
  unfold calculate_booking_duration. rewrite !duration_value.
  replace (time_mi_time a b) with (- time_mi_time b a)
    by (unfold time_mi_time; lia).
  rewrite duration_round_opp, duration_scale_opp. reflexivity.
Qed.

Lemma duration_self a : (calculate_booking_duration a a == 0)%Q.
Proof. by apply duration_sign. Qed.

(** A quotient of integers between 1 and 5 is within [5 * 10 ^ -17] of the
    exact one. *)
Lemma ratio_close S C :
  0 < C → C ≤ S → S ≤ 5 * C →
  (Qabs (numeric_value (numeric_div (mk_numeric S 0) (mk_numeric C 0))
         - inject_Z S / inject_Z C)
   <= 5 # 100000000000000000)%Q.
Proof.
  intros HC HCS HS5. unfold numeric_div.
  change (numeric_value (mk_numeric S 0)) with (inject_Z S).
  change (numeric_value (mk_numeric C 0)) with (inject_Z C).
  eapply Qle_trans; [apply round_at_close|].
  eapply Qle_trans;
    [apply (half_unit_le 16), select_div_scale_ratio; done|].
  discriminate.
Qed.

Local Close Scope Z_scope.

(** C9, as the code has it. For two times of a day,
    [calculate_booking_duration] is the elapsed seconds from start to end
    divided by 3600 and rounded to sixteen decimal places or more: a
    decimal of that many places within half a unit of the last place of the
    quotient. So it is within [5 * 10 ^ -17] of the quotient, and it is the
    quotient exactly when the elapsed time is a multiple of nine
    microseconds (as every multiple of three minutes is), and only then.
    From 09:00 to 10:30 it is 1.5. *)
Theorem calculate_booking_duration_spec p_start_time p_end_time :
  p_start_time ≤ end_of_day → p_end_time ≤ end_of_day →
  (∃ (places : N) (units : Z),
     16 ≤ places
     ∧ calculate_booking_duration p_start_time p_end_time
       = Qmake units (Z.to_pos (10 ^ Z.of_N places))
     ∧ (Qabs (calculate_booking_duration p_start_time p_end_time
              - (seconds p_end_time - seconds p_start_time) / 3600)
        <= 1 # (2 * Z.to_pos (10 ^ Z.of_N places)))%Q)
  ∧ (Qabs (calculate_booking_duration p_start_time p_end_time
           - (seconds p_end_time - seconds p_start_time) / 3600)
     <= 5 # 100000000000000000)%Q
  ∧ ((calculate_booking_duration p_start_time p_end_time
      == (seconds p_end_time - seconds p_start_time) / 3600)%Q
     ↔ (9 | time_mi_time p_end_time p_start_time)%Z)
  ∧ (calculate_booking_duration (make_time 9 0 0) (make_time 10 30 0)
     == 1.5)%Q.
Proof.
  intros Hs He. split; [|split; [by apply duration_close|]].
  - eexists _, _. split; [|split].
    + by apply (duration_scale_day _ (day_interval _ _ Hs He)).
    + unfold calculate_booking_duration. apply duration_value.
    + apply duration_rounded.
  - split; [by apply duration_exact|]. reflexivity.
Qed.

Lemma calculate_booking_duration_spec_witness :
  (∃ (places : N) (units : Z),
     16 ≤ places
     ∧ calculate_booking_duration (make_time 9 0 0) (make_time 9 10 0)
       = Qmake units (Z.to_pos (10 ^ Z.of_N places))
     ∧ (Qabs (calculate_booking_duration (make_time 9 0 0) (make_time 9 10 0)
              - (seconds (make_time 9 10 0) - seconds (make_time 9 0 0))
                / 3600)
        <= 1 # (2 * Z.to_pos (10 ^ Z.of_N places)))%Q)
  ∧ (Qabs (calculate_booking_duration (make_time 9 0 0) (make_time 9 10 0)
         - (seconds (make_time 9 10 0) - seconds (make_time 9 0 0)) / 3600)
   <= 5 # 100000000000000000)%Q
  ∧ ((calculate_booking_duration (make_time 9 0 0) (make_time 9 10 0)
      == (seconds (make_time 9 10 0) - seconds (make_time 9 0 0)) / 3600)%Q
     ↔ (9 | time_mi_time (make_time 9 10 0) (make_time 9 0 0))%Z)
  ∧ (calculate_booking_duration (make_time 9 0 0) (make_time 10 30 0)
     == 1.5)%Q.
Proof.
  apply (calculate_booking_duration_spec (make_time 9 0 0)
           (make_time 9 10 0)); vm_compute; discriminate.
Defined.

(** C9, as the specification has it, fails: from 09:00 to 09:10 the function
    gives 0.16666666666666666667, which is not 600 seconds divided by
    3600. *)
Lemma ten_minutes_are_not_a_sixth_of_an_hour :
  (calculate_booking_duration (make_time 9 0 0) (make_time 9 10 0)
   == 16666666666666666667 # 100000000000000000000)%Q
  ∧ ¬ (calculate_booking_duration (make_time 9 0 0) (make_time 9 10 0)
       == (seconds (make_time 9 10 0) - seconds (make_time 9 0 0)) / 3600)%Q.
Proof. split; [reflexivity|]. vm_compute. discriminate. Qed.

(** No clamping: the duration of an inverted interval is negative. *)
Lemma calculate_booking_duration_negative p_start_time p_end_time :
  p_end_time < p_start_time →
  (calculate_booking_duration p_start_time p_end_time < 0)%Q.
Proof.
  intros Hlt. rewrite (duration_opp p_end_time p_start_time).
  apply (proj1 (duration_sign p_end_time p_start_time)) in Hlt.
  apply Qopp_lt_compat in Hlt. exact Hlt.
Qed.

(** ** Statements: what a result tells *)

Lemma bind_Ok {A B} (f : A → result B) (m : result A) (b : B) :
  m ≫= f = Ok b → ∃ a, m = Ok a ∧ f a = Ok b.
Proof. destruct m as [a|e]; [by exists a | done]. Qed.

Lemma not_null_Ok {A} column (v : option A) a :
  not_null column v = Ok a → v = Some a.
Proof. destruct v; naive_solver. Qed.

Lemma require_Ok b e u : require b e = Ok u → b = true.
Proof. by destruct b. Qed.

Lemma references_Ok column v keys u :
  references column v keys = Ok u → ∀ k, v = Some k → k ∈ keys.
Proof.
  destruct v as [k'|]; [|done]. simpl. intros Hreq k [= <-].
  by apply require_Ok, bool_decide_eq_true in Hreq.
Qed.

(** Peels the binds of a statement that returned [Ok]. *)
Ltac peel H :=
  repeat match type of H with
         | _ ≫= _ = Ok _ =>
             let a := fresh "a" in
             let E := fresh "E" in
             apply bind_Ok in H as (a & E & H); cbv beta zeta in H
         end.

(** [create_booking_notification] adds one row to [booking_notifications]
    and touches nothing else, or fails. *)
Lemma create_booking_notification_Ok b u ty ti msg db db' :
  create_booking_notification b u ty ti msg db = Ok db' →
  ∃ b' u' ty' ti' msg',
    b = Some b' ∧ u = Some u' ∧ ty = Some ty' ∧ ti = Some ti'
    ∧ msg = Some msg' ∧ u' ∈ users db
    ∧ db' = mk_database (users db) (facilities db) (facility_schedules db)
              (bookings db)
              (booking_notifications db
                 ++ [mk_booking_notification b' u' ty' ti' msg' false]).
Proof.
  unfold create_booking_notification. intros H. peel H.
  apply not_null_Ok in E, E0, E1, E2, E3. subst.
  exists a, a0, a1, a2, a3. repeat split; [|congruence].
  by eapply references_Ok.
Qed.

Lemma create_booking_notification_succeeds b u ty ti msg db :
  b ∈ dom (bookings db) → u ∈ users db → ty ∈ notification_types →
  create_booking_notification (Some b) (Some u) (Some ty) (Some ti)
    (Some msg) db
  = Ok (mk_database (users db) (facilities db) (facility_schedules db)
          (bookings db)
          (booking_notifications db
             ++ [mk_booking_notification b u ty ti msg false])).
Proof.
  intros Hb Hu Hty. unfold create_booking_notification. simpl.
  rewrite !bool_decide_eq_true_2 by done. reflexivity.
Qed.

(** ** Status updates *)

(** What a successful status update of a stored booking does: the row gets
    the status and the time of the update, and the customer is notified if
    and only if the status is a new one. *)
Lemma update_booking_status_Ok now id s db db' b :
  bookings db !! id = Some b →
  update_booking_status now id (Some s) db = Ok db' →
  s ∈ booking_statuses
  ∧ bookings db' = <[id := set_updated_at now (set_status s b)]> (bookings db)
  ∧ booking_notifications db'
    = booking_notifications db
      ++ (if decide (s = status b) then []
          else [mk_booking_notification id (customer_id b) "status_update"
                  ("Booking " +:+ s)
                  ("Your booking for " +:+ date_out (booking_date b)
                     +:+ " has been " +:+ s) false]).
Proof.
  intros Hb. unfold update_booking_status. rewrite Hb. simpl.
  intros H. peel H. apply require_Ok in E. simpl in E.
  case_bool_decide as Hs; [clear E|done]. split; [done|].
  unfold notify_customer_on_status_change in H. simpl in H.
  destruct (decide (s = status b)) as [->|Hne].
  - rewrite bool_decide_eq_true_2 in H by done. simpl in H.
    injection H as <-. simpl. by rewrite app_nil_r.
  - rewrite bool_decide_eq_false_2 in H by done. simpl in H.
    apply create_booking_notification_Ok in H
      as (b' & u' & ty' & ti' & msg' & Hb' & Hu' & Hty' & Hti' & Hmsg' & _ & ->).
    simpl. by simplify_eq.
Qed.

(** A status of the [CHECK] list is accepted whatever the current status. *)
Lemma update_booking_status_succeeds now id s db b :
  bookings db !! id = Some b → customer_id b ∈ users db →
  s ∈ booking_statuses →
  ∃ db', update_booking_status now id (Some s) db = Ok db'.
Proof.
  intros Hb Hc Hs. unfold update_booking_status. rewrite Hb. simpl.
  rewrite bool_decide_eq_true_2 by done. simpl.
  unfold notify_customer_on_status_change. simpl.
  destruct (decide (s = status b)) as [->|Hne].
  - rewrite bool_decide_eq_true_2 by done. simpl. eauto.
  - rewrite bool_decide_eq_false_2 by done. simpl.
    rewrite create_booking_notification_succeeds; [eauto|..].
    + simpl. apply elem_of_dom. rewrite lookup_insert_eq. eauto.
    + done.
    + compute_done.
Qed.

(** C5, as the code has it. The schema has no transition table: a status
    update of a stored booking (whose customer is a user, as the foreign key
    has it) succeeds for every new status of the [CHECK] list, whatever the
    current status, and stores it in that row alone; for any other status
    it fails with a check violation and leaves the database as it was. *)
Theorem update_booking_status_transitions now id s db b :
  bookings db !! id = Some b → customer_id b ∈ users db →
  (s ∈ booking_statuses →
   ∃ db', update_booking_status now id (Some s) db = Ok db'
          ∧ bookings db'
            = <[id := set_updated_at now (set_status s b)]> (bookings db))
  ∧ (s ∉ booking_statuses →
     update_booking_status now id (Some s) db = Err (check_violation "status")
     ∧ exec (update_booking_status now id (Some s)) db = db).
Proof.
  intros Hb Hc. split; intros Hs.
  - destruct (update_booking_status_succeeds now id s db b) as [db' Hdb'];
      [done..|].
    exists db'. split; [done|].
    by apply (update_booking_status_Ok _ _ _ _ _ _ Hb) in Hdb' as (_ & -> & _).
  - assert (update_booking_status now id (Some s) db
            = Err (check_violation "status")) as Herr.
    { unfold update_booking_status. rewrite Hb. simpl.
      by rewrite bool_decide_eq_false_2. }
    split; [done|]. unfold exec. by rewrite Herr.
Qed.

Lemma update_booking_status_transitions_witness :
  (∃ db', update_booking_status 2 1 (Some "approved") denied_db = Ok db'
          ∧ bookings db'
            = <[1 := set_updated_at 2
                       (set_status "approved"
                          (set_updated_at 1
                             (set_status "denied" sample_booking)))]>
                (bookings denied_db))
  ∧ exec (update_booking_status 2 1 (Some "confirmed")) denied_db = denied_db.
Proof.
  pose proof (update_booking_status_transitions 2 1 "approved" denied_db
                (set_updated_at 1 (set_status "denied" sample_booking))
                ltac:(vm_compute; reflexivity)
                ltac:(compute_done)) as [Hyes _].
  pose proof (update_booking_status_transitions 2 1 "confirmed" denied_db
                (set_updated_at 1 (set_status "denied" sample_booking))
                ltac:(vm_compute; reflexivity)
                ltac:(compute_done)) as [_ Hno].
  split.
  - apply Hyes. compute_done.
  - apply Hno. compute_done.
Defined.

(** C5, as the specification has it, fails: a denied booking can be
    approved. *)
Lemma denied_booking_can_be_approved :
  status <$> bookings denied_db !! 1 = Some "denied"
  ∧ ∃ db', update_booking_status 2 1 (Some "approved") denied_db = Ok db'
           ∧ status <$> bookings db' !! 1 = Some "approved".
Proof.
  split; [vm_compute; reflexivity|].
  eexists. split; vm_compute; reflexivity.
Qed.

(** C6. A successful status update of a stored booking adds exactly one
    notification, of type [status_update] and for the booking's customer,
    when the new status differs from the current one, and none when it is
    the current one. *)
Theorem status_change_notifies_once now id s db db' b :
  bookings db !! id = Some b →
  update_booking_status now id (Some s) db = Ok db' →
  (s ≠ status b →
   ∃ n, booking_notifications db' = booking_notifications db ++ [n]
        ∧ notification_type n = "status_update"
        ∧ n_user_id n = customer_id b ∧ n_booking_id n = id)
  ∧ (s = status b → booking_notifications db' = booking_notifications db).
Proof.
  intros Hb Hup.
  apply (update_booking_status_Ok _ _ _ _ _ _ Hb) in Hup as (_ & _ & ->).
  split; intros Hs.
  - rewrite decide_False by done. eexists. split; [reflexivity|done].
  - rewrite decide_True by done. apply app_nil_r.
Qed.

Lemma status_change_notifies_once_witness :
  (∃ n, booking_notifications
          (exec (update_booking_status 2 1 (Some "approved")) booked_db)
        = booking_notifications booked_db ++ [n]
        ∧ notification_type n = "status_update"
        ∧ n_user_id n = customer ∧ n_booking_id n = 1)
  ∧ booking_notifications
      (exec (update_booking_status 2 1 (Some "pending")) booked_db)
    = booking_notifications booked_db.
Proof.
  split.
  - apply (status_change_notifies_once 2 1 "approved" booked_db
             (exec (update_booking_status 2 1 (Some "approved")) booked_db)
             sample_booking);
      [vm_compute; reflexivity | vm_compute; reflexivity | discriminate].
  - apply (status_change_notifies_once 2 1 "pending" booked_db
             (exec (update_booking_status 2 1 (Some "pending")) booked_db)
             sample_booking);
      [vm_compute; reflexivity | vm_compute; reflexivity | reflexivity].
Defined.

(** ** Inserts *)

Lemma decimal_column_Ok column p v r h :
  decimal_column column p v = Ok r → not_null column r = Ok h →
  ∃ q, v = Some q ∧ decimal_in p q = Some h.
Proof.
  destruct v as [q|]; simpl.
  - destruct (decimal_in p q) as [h'|] eqn:Hq; [|done].
    intros [= <-] [= <-]. by exists q.
  - by intros [= <-].
Qed.

Lemma decimal_in_round p q h : decimal_in p q = Some h → h = round_hundredths q.
Proof. unfold decimal_in. case_match; naive_solver. Qed.

Lemma check_passes_in s vs :
  check_passes (sql_in (Some s) vs) = bool_decide (s ∈ vs).
Proof. simpl. by case_bool_decide. Qed.

Lemma notify_owner_on_booking_Ok id NEW db db' :
  notify_owner_on_booking id NEW db = Ok db' →
  ∃ u, u ∈ users db
       ∧ facilities db !! facility_id NEW = Some (mk_facility (Some u))
       ∧ db' = mk_database (users db) (facilities db) (facility_schedules db)
                 (bookings db)
                 (booking_notifications db
                    ++ [mk_booking_notification id u "new_booking"
                          "New Booking Request"
                          ("You have a new booking request for "
                             +:+ date_out (booking_date NEW) +:+ " from "
                             +:+ time_out (start_time NEW) +:+ " to "
                             +:+ time_out (end_time NEW)) false]).
Proof.
  unfold notify_owner_on_booking. intros H. peel H.
  apply create_booking_notification_Ok in H
    as (b' & u' & ty' & ti' & msg' & ? & -> & ? & ? & ? & Hu & ->).
  cbv beta iota delta [sql_concat] in *.
  destruct (facilities db !! facility_id NEW) as [[[u|]]|];
    cbv beta iota delta [owner_id] in *; simplify_eq.
  by exists u'.
Qed.

(** What a successful insert does: the row is stored under a key that was
    free, with the given values (the numbers rounded to hundredths) and the
    defaults, and the facility's owner gets one [new_booking] notification. *)
Lemma insert_booking_Ok now v db db' :
  insert_booking now v db = Ok db' →
  ∃ NEW n,
    db' = mk_database (users db) (facilities db) (facility_schedules db)
            (<[v_id v := NEW]> (bookings db))
            (booking_notifications db ++ [n])
    ∧ bookings db !! v_id v = None
    ∧ insert_admissible v db = true
    ∧ v_facility_id v = Some (facility_id NEW)
    ∧ v_customer_id v = Some (customer_id NEW)
    ∧ v_booking_date v = Some (booking_date NEW)
    ∧ v_start_time v = Some (start_time NEW)
    ∧ v_end_time v = Some (end_time NEW)
    ∧ round_hundredths <$> v_total_hours v = Some (total_hours NEW)
    ∧ with_default "pending" (v_status v) = Some (status NEW)
    ∧ with_default "pending" (v_payment_status v) = Some (payment_status NEW)
    ∧ n_booking_id n = v_id v ∧ notification_type n = "new_booking"
    ∧ facilities db !! facility_id NEW = Some (mk_facility (Some (n_user_id n))).
Proof.
  unfold insert_booking. intros H. peel H.
  destruct (decimal_column_Ok _ _ _ _ _ E E6) as (qh & Hqh & Hh).
  destruct (decimal_column_Ok _ _ _ _ _ E0 E7) as (qa & Hqa & Ha).
  apply not_null_Ok in E1, E2, E3, E4, E5, E8, E9.
  apply require_Ok in E10, E11, E12.
  rewrite check_passes_in in E10, E11.
  apply bool_decide_eq_true in E10, E11, E12.
  pose proof (references_Ok _ _ _ _ E14 _ eq_refl) as Hc. simpl in Hc.
  pose proof (references_Ok _ _ _ _ E15) as Hts. simpl in Hts.
  apply notify_owner_on_booking_Ok in H as (u & Hu & Hfac & ->).
  simpl in Hu, Hfac.
  eexists _, _. split; [reflexivity|]. simpl.
  split; [done|]. split.
  { unfold insert_admissible, in_range, one_of, owner_known.
    rewrite Hqh, Hqa, Hh, Ha, E1, E2, E3, E4, E5, E8, E9, Hfac.
    rewrite !bool_decide_eq_true_2 by eauto.
    destruct (v_time_slot_id v) as [k|]; [|done].
    rewrite bool_decide_eq_true_2 by eauto. done. }
  rewrite Hqh. simpl. rewrite (decimal_in_round _ _ _ Hh).
  repeat split; done.
Qed.

(** An insert that meets the constraints succeeds. *)
Lemma insert_booking_admissible now v db :
  insert_admissible v db = true → ∃ db', insert_booking now v db = Ok db'.
Proof.
  unfold insert_admissible, in_range, one_of, owner_known. intros H.
  repeat (apply andb_true_iff in H as [H ?]).
  unfold insert_booking, decimal_column.
  destruct (v_total_hours v) as [qh|]; [|done].
  destruct (decimal_in 4 qh) as [h|]; [|done].
  destruct (v_total_amount v) as [qa|]; [|done].
  destruct (decimal_in 10 qa) as [a|]; [|done].
  destruct (v_facility_id v) as [f|]; [|done].
  destruct (v_customer_id v) as [c|]; [|done].
  destruct (v_booking_date v) as [d|]; [|done].
  destruct (v_start_time v) as [s|]; [|done].
  destruct (v_end_time v) as [e|]; [|done].
  destruct (with_default "pending" (v_status v)) as [st|]; [|done].
  destruct (with_default "pending" (v_payment_status v)) as [pay|]; [|done].
  destruct (facilities db !! f) as [[[u|]]|] eqn:Hf; try done.
  simpl.
  repeat match goal with
         | H : bool_decide _ = true |- _ => rewrite H
         end.
  simpl.
  rewrite (bool_decide_eq_true_2 (f ∈ dom (facilities db)))
    by (apply elem_of_dom; eauto).
  simpl.
  assert (references "time_slot_id" (v_time_slot_id v) (facility_schedules db)
          = Ok ()) as ->.
  { destruct (v_time_slot_id v); [|done]. simpl.
    by match goal with H : bool_decide _ = true |- _ => rewrite H end. }
  simpl. unfold notify_owner_on_booking. simpl. rewrite Hf. simpl.
  rewrite create_booking_notification_succeeds; [eauto|..].
  - simpl. apply elem_of_dom. rewrite lookup_insert_eq. eauto.
  - apply bool_decide_eq_true in H0. exact H0.
  - compute_done.
Qed.

(** The constraints do not look at the stored bookings beyond the key: the
    outcome of an insert is the same on any two tables in which the key is
    free. *)
Lemma insert_admissible_ignores_bookings v db bs :
  bookings db !! v_id v = None → bs !! v_id v = None →
  insert_admissible v (set_bookings bs db) = insert_admissible v db.
Proof.
  intros Hdb Hbs. unfold insert_admissible. simpl.
  by rewrite (bool_decide_eq_true_2 (bs !! v_id v = None)),
    (bool_decide_eq_true_2 (bookings db !! v_id v = None)).
Qed.



(** C4, as the code has it. A row stored by a successful insert has the
    status and the payment status of the statement, ["pending"] where the
    statement leaves the column to its default, and the [total_hours] of
    the statement, rounded to hundredths: the duration is not computed. A
    booking stored by a successful [POST /api/bookings] has status
    ["confirmed"], payment status ["pending"] and no [totalHours]. *)
Theorem created_booking_fields now v db now_iso body bs :
  (∀ db', insert_booking now v db = Ok db' →
     ∃ b, bookings db' !! v_id v = Some b
          ∧ Some (status b) = with_default "pending" (v_status v)
          ∧ Some (payment_status b)
            = with_default "pending" (v_payment_status v)
          ∧ Some (total_hours b) = round_hundredths <$> v_total_hours v)
  ∧ (Routes.res_status (Routes.post_bookings now_iso body bs).2 = 201 →
     ∃ booking,
       (Routes.post_bookings now_iso body bs).1 = bs ++ [booking]
       ∧ Routes.get booking "status" = Routes.JString "confirmed"
       ∧ Routes.get booking "paymentStatus" = Routes.JString "pending"
       ∧ Routes.get booking "totalHours" = Routes.JUndefined).
Proof.
  split.
  - intros db' Hins.
    apply insert_booking_Ok in Hins
      as (NEW & n & -> & _ & _ & _ & _ & _ & _ & _ & Hh & Hst & Hpay & _).
    exists NEW. simpl. by rewrite lookup_insert_eq.
  - unfold Routes.post_bookings. case_match; [done|]. intros _.
    eexists. split; [reflexivity|]. done.
Qed.

Lemma created_booking_fields_witness :
  (∃ b, bookings booked_db !! 1 = Some b
        ∧ Some (status b) = Some "pending"
        ∧ Some (payment_status b) = Some "pending"
        ∧ Some (total_hours b) = Some 100%Z)
  ∧ ∃ booking,
      (Routes.post_bookings "2025-09-24T06:21:55.000Z" sample_body []).1
      = [] ++ [booking]
      ∧ Routes.get booking "status" = Routes.JString "confirmed"
      ∧ Routes.get booking "paymentStatus" = Routes.JString "pending"
      ∧ Routes.get booking "totalHours" = Routes.JUndefined.
Proof.
  pose proof (created_booking_fields 0
                (sample_values 1 (make_time 9 0 0) (make_time 10 0 0) 1)
                sample_db "2025-09-24T06:21:55.000Z" sample_body [])
    as [Hsql Hpost].
  split.
  - apply (Hsql booked_db). vm_compute. reflexivity.
  - apply Hpost. vm_compute. reflexivity.
Defined.

(** C4, as the specification has it, fails: the booking the endpoint stores
    is ["confirmed"], not pending; and a row inserted for 09:00 to 10:00
    with five hours given keeps the five hours, where the duration is one. *)
Lemma created_booking_is_confirmed_with_given_hours :
  (∃ booking,
     Routes.post_bookings "2025-09-24T06:21:55.000Z" sample_body []
     = ([booking], Routes.mk_response 201 booking)
     ∧ Routes.get booking "status" = Routes.JString "confirmed")
  ∧ ∃ db' b,
      insert_booking 0
        (sample_values 1 (make_time 9 0 0) (make_time 10 0 0) 5) sample_db
      = Ok db'
      ∧ bookings db' !! 1 = Some b ∧ total_hours b = 500%Z
      ∧ (calculate_booking_duration (start_time b) (end_time b) == 1)%Q.
Proof.
  split.
  - eexists. split; vm_compute; reflexivity.
  - do 2 eexists. repeat split; vm_compute; reflexivity.
Qed.

(** ** The no-overlap invariant *)

Lemma overlap_sym a b : overlap a b → overlap b a.
Proof. unfold overlap. intros (Hf & Hd & Hab & Hba). by rewrite Hf, Hd. Qed.

(** A false check for an interval means that no stored active booking of
    the facility and date that is shown to the caller, the excluded one
    apart, meets the interval. *)
Lemma check_booking_conflicts_clear o c f d s e x db id b :
  check_booking_conflicts o c (Some f) (Some d) (Some s) (Some e) x db
  = false →
  bookings db !! id = Some b → bookings_visible o c db b = true →
  x ≠ Some id → active b →
  facility_id b = f → booking_date b = d →
  ¬ (start_time b < e ∧ s < end_time b).
Proof.
  intros Hcheck Hb Hvis Hx Hact Hf Hd Hmeet.
  apply not_true_iff_false in Hcheck. apply Hcheck.
  apply check_booking_conflicts_true. exists id, b. split; [done|].
  split; [done|]. apply conflict_where_true. tauto.
Qed.

(** Storing a row under a key keeps the invariant when the row, if active,
    overlaps no active row under another key, and the rows under the other
    keys did not overlap before. *)
Lemma no_overlap_insert bs id NEW :
  (∀ i j a b, i ≠ j → i ≠ id → j ≠ id → bs !! i = Some a → bs !! j = Some b →
              active a → active b → ¬ overlap a b) →
  (∀ j b, j ≠ id → bs !! j = Some b → active NEW → active b →
          ¬ overlap NEW b) →
  no_overlap (<[id := NEW]> bs).
Proof.
  intros Hold Hnew i j a b Hij Ha Hb Hacta Hactb Hov.
  destruct (decide (i = id)) as [->|Hi], (decide (j = id)) as [->|Hj].
  - done.
  - rewrite lookup_insert_eq in Ha. rewrite lookup_insert_ne in Hb by done.
    simplify_eq. by eapply Hnew.
  - rewrite lookup_insert_eq in Hb. rewrite lookup_insert_ne in Ha by done.
    simplify_eq. eapply Hnew; eauto using overlap_sym.
  - rewrite lookup_insert_ne in Ha, Hb by done. by eapply (Hold i j).
Qed.

(** In a table without overlaps, an active booking's own interval is free
    once the booking itself is excluded. *)
Lemma own_interval_is_free o c db X A :
  no_overlap (bookings db) → bookings db !! X = Some A → active A →
  check_booking_conflicts o c (Some (facility_id A)) (Some (booking_date A))
    (Some (start_time A)) (Some (end_time A)) (Some X) db = false.
Proof.
  intros Hinv HA Hact. apply check_booking_conflicts_false. intros id b Hb _.
  apply not_true_iff_false. rewrite conflict_where_true.
  intros (Hf & Hd & Hactb & Hx & Hlt1 & Hlt2).
  apply (Hinv id X b A); [congruence|done..|].
  by repeat split.
Qed.

Lemma checked_step_no_overlap o db db' :
  no_overlap (bookings db) → checked_step o db db' →
  no_overlap (bookings db').
Proof.
  intros Hinv [c now v Hsees Hcheck Hins | c now id s Hcheck Hup].
  - apply insert_booking_Ok in Hins
      as (NEW & n & -> & Hfree & _ & Hf & _ & Hd & Hs & He & _).
    rewrite Hf, Hd, Hs, He in Hcheck. simpl.
    apply no_overlap_insert.
    + intros i j a b Hij _ _. by apply Hinv.
    + intros j b Hj Hb _ Hactb (Hf' & Hd' & Hlt1 & Hlt2).
      eapply (check_booking_conflicts_clear _ _ _ _ _ _ _ _ j b Hcheck);
        try done.
      by apply (Hsees _ Hf j).
  - destruct (bookings db !! id) as [OLD|] eqn:Hold.
    + apply (update_booking_status_Ok _ _ _ _ _ _ Hold) in Hup as (_ & -> & _).
      apply no_overlap_insert.
      * intros i j a b Hij _ _. by apply Hinv.
      * intros j b Hj Hb Hact Hactb (Hf' & Hd' & Hlt1 & Hlt2).
        destruct (decide (active OLD)) as [Hactold|Hinactive].
        -- by apply (Hinv id j OLD b).
        -- destruct (Hcheck OLD eq_refl Hinactive Hact) as [Hsees Hfalse].
           simpl in Hf', Hd', Hlt1, Hlt2.
           apply (check_booking_conflicts_clear _ _ _ _ _ _ _ _ j b Hfalse Hb);
             [by apply (Hsees j b Hb) | congruence | done | done | done
             | done].
    + unfold update_booking_status in Hup. rewrite Hold in Hup.
      by injection Hup as <-.
Qed.

(** The sessions that are shown every booking of a facility. *)
Lemma sees_bookings_of_facility o c db f :
  bypass_rls c = true ∨ auth_role c = Some "service_role"
  ∨ (∃ fac u, facilities db !! f = Some fac ∧ auth_uid c = Some u
              ∧ o fac u = true) →
  sees_bookings_of o c db f.
Proof.
  intros Hc id b _ Hf. apply bookings_visible_true. rewrite Hf. tauto.
Qed.

(** C1, as the code has it. The schema and the endpoint never run the
    conflict check, so the invariant is the caller's to keep: from a state
    without overlaps, any sequence of successful inserts and status updates
    each made after [check_booking_conflicts] answered false (for an
    insert, on the new interval; for an update that makes an inactive
    booking active, on that booking's interval with the booking excluded)
    to a caller that is shown every booking of the facility, ends in a
    state without overlaps. Such callers are the service role, a role that
    row-level security does not apply to, and the owner of the facility. *)
Theorem checked_steps_keep_no_overlap owner_text_is db db' :
  no_overlap (bookings db) → rtc (checked_step owner_text_is) db db' →
  no_overlap (bookings db')
  ∧ ∀ caller db0 f,
      bypass_rls caller = true ∨ auth_role caller = Some "service_role"
      ∨ (∃ fac u, facilities db0 !! f = Some fac ∧ auth_uid caller = Some u
                  ∧ owner_text_is fac u = true) →
      sees_bookings_of owner_text_is caller db0 f.
Proof.
  intros Hinv Hsteps.
  split; [|intros c db0 f; apply sees_bookings_of_facility].
  induction Hsteps as [|db1 db2 db3 Hstep _ IH]; [done|].
  apply IH. by eapply checked_step_no_overlap.
Qed.

Lemma no_overlap_empty : no_overlap ∅.
Proof. intros i j a b _ Ha. by rewrite lookup_empty in Ha. Qed.

Lemma checked_steps_keep_no_overlap_witness : no_overlap (bookings tiled_db).
Proof.
  apply (checked_steps_keep_no_overlap owner_is sample_db tiled_db).
  - intros i j a b _ Ha. vm_compute in Ha. discriminate Ha.
  - apply (rtc_l _ _ booked_db).
    { apply (checked_insert _ _ _ service_role 0
               (sample_values 1 (make_time 9 0 0) (make_time 10 0 0) 1));
        [|vm_compute; reflexivity..].
      intros f _. apply sees_bookings_of_facility. right. by left. }
    apply (rtc_l _ _ tiled_db); [|apply rtc_refl].
    apply (checked_insert _ _ _ (signed_in owner) 1
             (sample_values 2 (make_time 10 0 0) (make_time 11 0 0) 1));
      [|vm_compute; reflexivity..].
    intros f [= <-]. apply sees_bookings_of_facility. do 2 right.
    exists (mk_facility (Some owner)), owner. by repeat split.
Defined.

(** A check asked by a customer does not keep the invariant: on
    [booked_db] the user [admin], who is shown no booking of [customer],
    gets false for 09:30 to 10:30, and the insert leaves two pending
    bookings of the court that overlap. *)
Lemma a_customers_check_misses_other_customers :
  check_booking_conflicts owner_is (signed_in admin) (Some court)
    (Some the_day) (Some (make_time 9 30 0)) (Some (make_time 10 30 0)) None
    booked_db = false
  ∧ insert_booking 1 (values_of admin 2 (make_time 9 30 0)
                        (make_time 10 30 0)) booked_db
    = Ok rival_db
  ∧ ¬ no_overlap (bookings rival_db).
Proof.
  split; [vm_compute; reflexivity|]. split; [vm_compute; reflexivity|].
  intros Hinv.
  apply (Hinv 1 2 sample_booking
           (mk_booking court admin None the_day (make_time 9 30 0)
              (make_time 10 30 0) 100 5000 "pending" "pending" None 1 1)).
  - done.
  - vm_compute. reflexivity.
  - vm_compute. reflexivity.
  - by left.
  - by left.
  - repeat split.
Qed.

(** C1, as the specification has it, fails: from [sample_db], which has no
    booking, two successful inserts for the same court and day, 09:00 to
    10:00 and 09:30 to 10:30, leave two pending bookings that overlap. *)
Lemma unchecked_steps_break_no_overlap :
  ¬ (∀ db db', no_overlap (bookings db) → rtc step db db' →
               no_overlap (bookings db')).
Proof.
  intros Hclaim.
  assert (no_overlap (bookings double_booked_db)) as Hinv.
  { apply (Hclaim sample_db).
    - exact no_overlap_empty.
    - apply (rtc_l _ _ booked_db).
      { apply (step_insert _ _ 0
                 (sample_values 1 (make_time 9 0 0) (make_time 10 0 0) 1)).
        vm_compute. reflexivity. }
      apply (rtc_l _ _ double_booked_db); [|apply rtc_refl].
      apply (step_insert _ _ 1
               (sample_values 2 (make_time 9 30 0) (make_time 10 30 0) 1)).
      vm_compute. reflexivity. }
  apply (Hinv 1 2 sample_booking
           (mk_booking court customer None the_day (make_time 9 30 0)
              (make_time 10 30 0) 100 5000 "pending" "pending"
              (Some "Please ensure the court is clean") 1 1)).
  - done.
  - vm_compute. reflexivity.
  - vm_compute. reflexivity.
  - by left.
  - by left.
  - repeat split.
Qed.

(** ** The bookings endpoint *)

(** The values [!v] rejects: [undefined], [null], [false], zero and the
    empty string. *)
Lemma falsy_values v :
  Routes.truthy v = false
  ↔ v = Routes.JUndefined ∨ v = Routes.JNull ∨ v = Routes.JBool false
    ∨ (∃ q, v = Routes.JNumber q ∧ (q == 0)%Q) ∨ v = Routes.JString "".
Proof.
  split.
  - destruct v as [| |[]|q|s|props|items]; simpl; intros H;
      try discriminate; eauto 6.
    + do 3 right. left. exists q. split; [done|].
      by apply Qeq_bool_iff, negb_false_iff.
    + do 4 right. apply negb_false_iff, bool_decide_eq_true in H. by subst.
  - intros [-> | [-> | [-> | [(q & -> & Hq) | ->]]]]; simpl; try done.
    by apply negb_false_iff, Qeq_bool_iff.
Qed.

(** C10, as the code has it. The handler answers 400 with the message
    ['Missing required fields'] and leaves the list as it is exactly when
    one of [userId], [facilityId], [courtId], [date], [timeSlot.start] and
    [timeSlot.end] is falsy: absent, [null], [false], zero or the empty
    string. Otherwise it appends one booking, whose [id] is the new length
    of the list and whose [totalPrice] is the body's, or 0 when that is
    absent or [null], and answers 201 with that booking. *)
Theorem post_bookings_spec now_iso body bs :
  (Exists (λ v, Routes.truthy v = false) (required_values body)
   ∧ Routes.post_bookings now_iso body bs
     = (bs,
        Routes.mk_response 400
          (Routes.JObject
             [("message", Routes.JString "Missing required fields")])))
  ∨ (Forall (λ v, Routes.truthy v = true) (required_values body)
     ∧ ∃ booking,
         Routes.post_bookings now_iso body bs
         = (bs ++ [booking], Routes.mk_response 201 booking)
         ∧ Routes.get booking "id" = Routes.JString (pretty (S (length bs)))
         ∧ Routes.get booking "totalPrice"
           = match Routes.get (Routes.js_or body (Routes.JObject []))
                     "totalPrice" with
             | Routes.JUndefined | Routes.JNull => Routes.JNumber 0
             | price => price
             end).
Proof.
  unfold Routes.post_bookings, required_values.
  set (b := Routes.js_or body (Routes.JObject [])).
  destruct (Routes.truthy (Routes.get b "userId")) eqn:H1;
    [|left; split; [|done]; rewrite !Exists_cons; tauto].
  destruct (Routes.truthy (Routes.get b "facilityId")) eqn:H2;
    [|left; split; [|done]; rewrite !Exists_cons; tauto].
  destruct (Routes.truthy (Routes.get b "courtId")) eqn:H3;
    [|left; split; [|done]; rewrite !Exists_cons; tauto].
  destruct (Routes.truthy (Routes.get b "date")) eqn:H4;
    [|left; split; [|done]; rewrite !Exists_cons; tauto].
  destruct (Routes.truthy
              (Routes.opt_get (Routes.get b "timeSlot") "start")) eqn:H5;
    [|left; split; [|done]; rewrite !Exists_cons; tauto].
  destruct (Routes.truthy
              (Routes.opt_get (Routes.get b "timeSlot") "end")) eqn:H6;
    [|left; split; [|done]; rewrite !Exists_cons; tauto].
  right. split; [by repeat constructor|].
  eexists. split; [reflexivity|]. split.
  - simpl. by rewrite Nat.add_1_r.
  - simpl. by destruct (Routes.get b "totalPrice").
Qed.

(** C10, as the specification has it, fails: in [empty_user_body] each of
    the six fields is there, [userId] as the empty string, and the handler
    answers 400. *)
Lemma empty_user_id_is_rejected :
  Forall (λ v, v ≠ Routes.JUndefined) (required_values empty_user_body)
  ∧ Routes.post_bookings "2025-09-24T06:21:55.000Z" empty_user_body []
    = ([],
       Routes.mk_response 400
         (Routes.JObject
            [("message", Routes.JString "Missing required fields")])).
Proof.
  split; [|vm_compute; reflexivity].
  vm_compute. repeat constructor; discriminate.
Qed.

(** * Further properties of the code *)

(** ** Inserts and the owner's notification *)

(** The whole effect of a successful insert. *)
Lemma insert_booking_stores now v db db' :
  insert_booking now v db = Ok db' →
  ∃ NEW u,
    db' = mk_database (users db) (facilities db) (facility_schedules db)
            (<[v_id v := NEW]> (bookings db))
            (booking_notifications db
               ++ [mk_booking_notification (v_id v) u "new_booking"
                     "New Booking Request" (new_booking_message NEW) false])
    ∧ bookings db !! v_id v = None
    ∧ facilities db !! facility_id NEW = Some (mk_facility (Some u))
    ∧ u ∈ users db ∧ customer_id NEW ∈ users db
    ∧ (∀ k, time_slot_id NEW = Some k → k ∈ facility_schedules db)
    ∧ status NEW ∈ booking_statuses ∧ payment_status NEW ∈ payment_statuses
    ∧ v_facility_id v = Some (facility_id NEW)
    ∧ v_booking_date v = Some (booking_date NEW)
    ∧ v_start_time v = Some (start_time NEW)
    ∧ v_end_time v = Some (end_time NEW)
    ∧ with_default "pending" (v_status v) = Some (status NEW)
    ∧ v_customer_id v = Some (customer_id NEW).
Proof.
  unfold insert_booking. intros H. peel H.
  destruct (decimal_column_Ok _ _ _ _ _ E E6) as (qh & Hqh & Hh).
  destruct (decimal_column_Ok _ _ _ _ _ E0 E7) as (qa & Hqa & Ha).
  apply not_null_Ok in E1, E2, E3, E4, E5, E8, E9.
  apply require_Ok in E10, E11, E12.
  rewrite check_passes_in in E10, E11.
  apply bool_decide_eq_true in E10, E11, E12.
  pose proof (references_Ok _ _ _ _ E14 _ eq_refl) as Hc. simpl in Hc.
  pose proof (references_Ok _ _ _ _ E15) as Hts. simpl in Hts.
  apply notify_owner_on_booking_Ok in H as (u & Hu & Hfac & ->).
  simpl in Hu, Hfac.
  eexists _, u. split; [reflexivity|]. simpl. repeat split; done.
Qed.

(** X1. A successful insert sends the owner of the facility exactly one
    notification: of type [new_booking], for the new booking, with the
    title ['New Booking Request'] and a message that names the date and the
    two times of the booking. *)
Theorem insert_notifies_owner now v db db' :
  insert_booking now v db = Ok db' →
  ∃ b u,
    bookings db' !! v_id v = Some b
    ∧ facilities db !! facility_id b = Some (mk_facility (Some u))
    ∧ booking_notifications db'
      = booking_notifications db
        ++ [mk_booking_notification (v_id v) u "new_booking"
              "New Booking Request"
              ("You have a new booking request for "
                 +:+ date_out (booking_date b) +:+ " from "
                 +:+ time_out (start_time b) +:+ " to "
                 +:+ time_out (end_time b)) false].
Proof.
  intros Hins.
  apply insert_booking_stores in Hins as (NEW & u & -> & _ & Hfac & _).
  exists NEW, u. simpl. by rewrite lookup_insert_eq.
Qed.

Lemma insert_notifies_owner_witness :
  ∃ b u,
    bookings booked_db !! 1 = Some b
    ∧ facilities sample_db !! facility_id b = Some (mk_facility (Some u))
    ∧ booking_notifications booked_db
      = booking_notifications sample_db
        ++ [mk_booking_notification 1 u "new_booking" "New Booking Request"
              ("You have a new booking request for "
                 +:+ date_out (booking_date b) +:+ " from "
                 +:+ time_out (start_time b) +:+ " to "
                 +:+ time_out (end_time b)) false].
Proof.
  apply (insert_notifies_owner 0
           (sample_values 1 (make_time 9 0 0) (make_time 10 0 0) 1)
           sample_db booked_db).
  vm_compute. reflexivity.
Defined.



(** ** What sequences of statements keep *)

(** The whole effect of a successful status update. *)
Lemma update_booking_status_inv now id s db db' :
  update_booking_status now id s db = Ok db' →
  (bookings db !! id = None ∧ db' = db)
  ∨ ∃ b st,
      bookings db !! id = Some b ∧ s = Some st ∧ st ∈ booking_statuses
      ∧ db' = mk_database (users db) (facilities db) (facility_schedules db)
                (<[id := set_updated_at now (set_status st b)]> (bookings db))
                (booking_notifications db
                   ++ (if decide (st = status b) then []
                       else [mk_booking_notification id (customer_id b)
                               "status_update" ("Booking " +:+ st)
                               ("Your booking for "
                                  +:+ date_out (booking_date b)
                                  +:+ " has been " +:+ st) false]))
      ∧ (st ≠ status b → customer_id b ∈ users db).
Proof.
  unfold update_booking_status.
  destruct (bookings db !! id) as [b|] eqn:Hb; [|intros [= <-]; by left].
  intros H. right. peel H. apply not_null_Ok in E. subst s.
  apply require_Ok in E0. rewrite check_passes_in in E0.
  apply bool_decide_eq_true in E0. simpl in E0.
  exists b, a. split; [done|]. split; [done|]. split; [done|].
  unfold notify_customer_on_status_change in H. simpl in H.
  destruct (decide (a = status b)) as [->|Hne].
  - rewrite bool_decide_eq_true_2 in H by done. simpl in H.
    injection H as <-. unfold set_bookings. simpl.
    by rewrite app_nil_r.
  - rewrite bool_decide_eq_false_2 in H by done. simpl in H.
    apply create_booking_notification_Ok in H
      as (b' & u' & ty' & ti' & msg' & ? & ? & ? & ? & ? & Hu & ->).
    simpl in *. by simplify_eq.
Qed.

(** X3. Notifications are only ever appended, and bookings never removed:
    after any sequence of successful inserts and status updates the old
    list of notifications is a prefix of the new one, every key of
    [bookings] is still there, and [users], [facilities] and
    [facility_schedules] are as they were. *)
Theorem steps_only_append db db' :
  rtc step db db' →
  booking_notifications db `prefix_of` booking_notifications db'
  ∧ dom (bookings db) ⊆ dom (bookings db')
  ∧ users db' = users db ∧ facilities db' = facilities db
  ∧ facility_schedules db' = facility_schedules db.
Proof.
  induction 1 as [db|db1 db2 db3 Hstep _ IH]; [done|].
  destruct IH as (Hn & Hd & -> & -> & ->).
  assert (booking_notifications db1 `prefix_of` booking_notifications db2
          ∧ dom (bookings db1) ⊆ dom (bookings db2)
          ∧ users db2 = users db1 ∧ facilities db2 = facilities db1
          ∧ facility_schedules db2 = facility_schedules db1)
    as (Hn' & Hd' & -> & -> & ->); [|by repeat split; etrans].
  destruct Hstep as [now v Hins | now id s Hup].
  - apply insert_booking_stores in Hins as (NEW & u & -> & _). simpl.
    repeat split; [by apply prefix_app_r | ].
    rewrite dom_insert. apply union_subseteq_r.
  - apply update_booking_status_inv in Hup
      as [[_ ->] | (b & st & Hb & _ & _ & -> & _)]; [done|]. simpl.
    repeat split; [by apply prefix_app_r | ].
    rewrite dom_insert. apply union_subseteq_r.
Qed.

Lemma steps_only_append_witness :
  booking_notifications sample_db `prefix_of` booking_notifications denied_db
  ∧ dom (bookings sample_db) ⊆ dom (bookings denied_db)
  ∧ users denied_db = users sample_db
  ∧ facilities denied_db = facilities sample_db
  ∧ facility_schedules denied_db = facility_schedules sample_db.
Proof.
  apply (steps_only_append sample_db denied_db).
  apply (rtc_l _ _ booked_db).
  { apply (step_insert _ _ 0
             (sample_values 1 (make_time 9 0 0) (make_time 10 0 0) 1)).
    vm_compute. reflexivity. }
  apply (rtc_l _ _ denied_db); [|apply rtc_refl].
  apply (step_update _ _ 1 1 (Some "denied")). vm_compute. reflexivity.
Defined.

Lemma step_constraints_hold db db' :
  constraints_hold db → step db db' → constraints_hold db'.
Proof.
  intros [Hrows Hnotes] [now v Hins | now id s Hup].
  - apply insert_booking_stores in Hins
      as (NEW & u & -> & _ & Hfac & Hu & Hc & Hts & Hst & Hpay & _).
    split; simpl.
    + intros id b Hb. destruct (decide (id = v_id v)) as [->|Hne].
      * rewrite lookup_insert_eq in Hb. injection Hb as <-.
        repeat split; try done. apply elem_of_dom. eauto.
      * rewrite lookup_insert_ne in Hb by done. by apply (Hrows id).
    + intros n Hn. rewrite dom_insert.
      apply elem_of_app in Hn as [Hn | Hn%list_elem_of_singleton].
      * destruct (Hnotes n Hn) as (? & ? & ?).
        repeat split; try done. by apply elem_of_union_r.
      * subst n. simpl. repeat split; try done.
        -- apply elem_of_union_l. by apply elem_of_singleton.
        -- compute_done.
  - apply update_booking_status_inv in Hup
      as [[_ ->] | (b & st & Hb & _ & Hst & -> & Hcust)]; [done|].
    destruct (Hrows id b Hb) as (Hf & Hc & Hts & _ & Hpay).
    split; simpl.
    + intros id' b' Hb'. destruct (decide (id' = id)) as [->|Hne].
      * rewrite lookup_insert_eq in Hb'. injection Hb' as <-. done.
      * rewrite lookup_insert_ne in Hb' by done. by apply (Hrows id').
    + intros n Hn. rewrite dom_insert.
      apply elem_of_app in Hn as [Hn | Hn].
      * destruct (Hnotes n Hn) as (? & ? & ?).
        repeat split; try done. by apply elem_of_union_r.
      * destruct (decide (st = status b)); [by apply elem_of_nil in Hn|].
        apply list_elem_of_singleton in Hn. subst n. simpl.
        repeat split; try done.
        -- apply elem_of_union_l. by apply elem_of_singleton.
        -- compute_done.
Qed.

(** X4. The constraints hold of every stored row after any sequence of
    successful inserts and status updates, if they held before: each
    booking's facility, customer and time slot exist and its statuses are
    of the [CHECK] lists, and each notification's booking and user exist
    and its type is of the [CHECK] list. *)
Theorem steps_keep_constraints db db' :
  constraints_hold db → rtc step db db' → constraints_hold db'.
Proof.
  intros Hdb Hsteps. induction Hsteps as [|db1 db2 db3 Hstep _ IH]; [done|].
  apply IH. by eapply step_constraints_hold.
Qed.

Lemma steps_keep_constraints_witness : constraints_hold denied_db.
Proof.
  apply (steps_keep_constraints sample_db denied_db).
  - split.
    + intros id b Hb. vm_compute in Hb. discriminate Hb.
    + intros n Hn. vm_compute in Hn. by apply elem_of_nil in Hn.
  - apply (rtc_l _ _ booked_db).
    { apply (step_insert _ _ 0
               (sample_values 1 (make_time 9 0 0) (make_time 10 0 0) 1)).
      vm_compute. reflexivity. }
    apply (rtc_l _ _ denied_db); [|apply rtc_refl].
    apply (step_update _ _ 1 1 (Some "denied")). vm_compute. reflexivity.
Defined.

Lemma same_reservation_refl b : same_reservation b b.
Proof. by repeat split. Qed.

Lemma same_reservation_trans a b c :
  same_reservation a b → same_reservation b c → same_reservation a c.
Proof.
  unfold same_reservation.
  intros (?&?&?&?&?&?&?&?&?&?&?) (?&?&?&?&?&?&?&?&?&?&?).
  repeat split; congruence.
Qed.

(** X5. A stored booking stays the reservation it was: after any sequence of
    successful inserts and status updates its key still holds a row with
    the same facility, customer, time slot, date, times, hours, amount,
    payment status, requests and creation time. Only [status] and
    [updated_at] can differ. *)
Theorem steps_keep_reservation db db' id b :
  rtc step db db' → bookings db !! id = Some b →
  ∃ b', bookings db' !! id = Some b' ∧ same_reservation b b'.
Proof.
  intros Hsteps. revert b.
  induction Hsteps as [db|db1 db2 db3 Hstep _ IH]; intros b Hb.
  { exists b. split; [done|]. apply same_reservation_refl. }
  assert (∃ b2, bookings db2 !! id = Some b2 ∧ same_reservation b b2)
    as (b2 & Hb2 & Hsame).
  { destruct Hstep as [now v Hins | now id' s Hup].
    - apply insert_booking_stores in Hins as (NEW & u & -> & Hfree & _).
      exists b. split; [|apply same_reservation_refl]. simpl.
      rewrite lookup_insert_ne; [done|]. congruence.
    - apply update_booking_status_inv in Hup
        as [[_ ->] | (b0 & st & Hb0 & _ & _ & -> & _)].
      { exists b. split; [done|]. apply same_reservation_refl. }
      simpl. destruct (decide (id = id')) as [->|Hne].
      + rewrite lookup_insert_eq. eexists. split; [reflexivity|].
        rewrite Hb in Hb0. injection Hb0 as <-. by repeat split.
      + rewrite lookup_insert_ne by done.
        exists b. split; [done|]. apply same_reservation_refl. }
  destruct (IH b2 Hb2) as (b' & Hb' & Hsame').
  exists b'. split; [done|]. by eapply same_reservation_trans.
Qed.

Lemma steps_keep_reservation_witness :
  ∃ b', bookings denied_db !! 1 = Some b' ∧ same_reservation sample_booking b'.
Proof.
  apply (steps_keep_reservation booked_db denied_db 1 sample_booking).
  - apply (rtc_l _ _ denied_db); [|apply rtc_refl].
    apply (step_update _ _ 1 1 (Some "denied")). vm_compute. reflexivity.
  - vm_compute. reflexivity.
Defined.

(** ** The conflict check after a statement *)

(** A row that is not active does not count. *)
Lemma conflict_where_inactive f d s e x id b :
  ¬ active b → is_true (conflict_where f d s e x id b) = false.
Proof.
  intros Hb. unfold conflict_where. rewrite !is_true_and.
  assert (is_true (sql_in (Some (status b)) ["pending"; "approved"]) = false)
    as ->; [|by rewrite andb_false_r].
  unfold sql_in. rewrite is_true_Some. apply bool_decide_eq_false.
  rewrite !elem_of_cons, elem_of_nil. unfold active in Hb. tauto.
Qed.

(** X6. A booking that is denied, cancelled or completed no longer blocks
    its slot: after a successful update to a status other than pending and
    approved, every conflict check answers, to every caller, as it would on
    the table without that booking. *)
Theorem inactive_status_frees_slot owner_text_is caller now id st db db' f d s
    e x :
  st ≠ "pending" → st ≠ "approved" →
  update_booking_status now id (Some st) db = Ok db' →
  check_booking_conflicts owner_text_is caller f d s e x db'
  = check_booking_conflicts owner_text_is caller f d s e x
      (set_bookings (delete id (bookings db)) db).
Proof.
  intros Hp Ha Hup. apply eq_true_iff_eq.
  rewrite !check_booking_conflicts_true.
  apply update_booking_status_inv in Hup
    as [[Hnone ->] | (b & st' & Hb & [= <-] & _ & -> & _)].
  - cbn [bookings set_bookings]. rewrite delete_id by done.
    by setoid_rewrite (bookings_visible_facilities owner_text_is caller db
                         (set_bookings (bookings db) db)).
  - cbn [bookings set_bookings].
    split; intros (id' & b' & Hb' & Hvis & Hw); exists id', b';
      (split; [|split; [exact Hvis | exact Hw]]).
    + destruct (decide (id' = id)) as [->|Hne].
      * rewrite lookup_insert_eq in Hb'. injection Hb' as <-.
        rewrite conflict_where_inactive in Hw; [done|].
        unfold active. simpl. tauto.
      * rewrite lookup_insert_ne in Hb' by done. by rewrite lookup_delete_ne.
    + destruct (decide (id' = id)) as [->|Hne].
      * by rewrite lookup_delete_eq in Hb'.
      * rewrite lookup_delete_ne in Hb' by done. by rewrite lookup_insert_ne.
Qed.

Lemma inactive_status_frees_slot_witness :
  check_booking_conflicts owner_is (signed_in customer) (Some court)
    (Some the_day) (Some (make_time 9 30 0)) (Some (make_time 10 30 0)) None
    cancelled_db
  = check_booking_conflicts owner_is (signed_in customer) (Some court)
      (Some the_day) (Some (make_time 9 30 0)) (Some (make_time 10 30 0)) None
      (set_bookings (delete 1 (bookings booked_db)) booked_db).
Proof.
  apply (inactive_status_frees_slot owner_is (signed_in customer) 1 1
           "cancelled" booked_db cancelled_db);
    [discriminate | discriminate | vm_compute; reflexivity].
Defined.

(** X7. A booking inserted as pending or approved, with its end after its
    start, blocks its slot for the callers that are shown the new row (its
    customer, the owner of the facility, the service role, a role that
    row-level security does not apply to): to them the check for its own
    facility, date and interval is true afterwards. To every other caller
    each check answers after the insert as it did before. *)
Theorem inserted_booking_blocks_its_slot owner_text_is caller now v db db' s e
    st NEW :
  insert_booking now v db = Ok db' →
  v_start_time v = Some s → v_end_time v = Some e → s < e →
  with_default "pending" (v_status v) = Some st →
  st = "pending" ∨ st = "approved" →
  bookings db' !! v_id v = Some NEW →
  (bookings_visible owner_text_is caller db' NEW = true
   ↔ bypass_rls caller = true ∨ auth_uid caller = v_customer_id v
     ∨ (∃ k f u, v_facility_id v = Some k ∧ facilities db !! k = Some f
                 ∧ auth_uid caller = Some u ∧ owner_text_is f u = true)
     ∨ auth_role caller = Some "service_role")
  ∧ (bookings_visible owner_text_is caller db' NEW = true →
     check_booking_conflicts owner_text_is caller (v_facility_id v)
       (v_booking_date v) (v_start_time v) (v_end_time v) None db' = true)
  ∧ (bookings_visible owner_text_is caller db' NEW = false →
     ∀ f d s' e' x,
       check_booking_conflicts owner_text_is caller f d s' e' x db'
       = check_booking_conflicts owner_text_is caller f d s' e' x db).
Proof.
  intros Hins Hs He Hlt Hst Hact HNEW.
  apply insert_booking_stores in Hins
    as (NEW' & u & -> & Hfree & _ & _ & _ & _ & _ & _ & Hf & Hd & Hs' & He'
        & Hst' & Hc).
  cbn [bookings set_bookings] in HNEW. rewrite lookup_insert_eq in HNEW.
  injection HNEW as ->.
  set (db' := mk_database _ _ _ _ _).
  assert (facilities db' = facilities db) as Hfac by reflexivity.
  split; [|split].
  - rewrite bookings_visible_true, Hfac, Hc. split.
    + intros [Hb | [Hu | [(f & u' & Hk & Hu & Ho) | Hr]]].
      * by left.
      * right. left. congruence.
      * do 2 right. left. by exists (facility_id NEW), f, u'.
      * by do 3 right.
    + intros [Hb | [Hu | [(k & f & u' & Hk & Hk' & Hu & Ho) | Hr]]].
      * by left.
      * right. left. congruence.
      * do 2 right. left. exists f, u'. rewrite Hf in Hk. by simplify_eq.
      * by do 3 right.
  - intros Hvis. rewrite Hf, Hd, Hs', He'. apply check_booking_conflicts_true.
    exists (v_id v), NEW. split; [apply lookup_insert_eq|]. split; [done|].
    apply conflict_where_true. unfold active.
    assert (status NEW = st) as -> by congruence.
    assert (start_time NEW = s) as -> by congruence.
    assert (end_time NEW = e) as -> by congruence.
    done.
  - intros Hhidden f d s' e' x. apply eq_true_iff_eq.
    rewrite !check_booking_conflicts_true.
    setoid_rewrite (bookings_visible_facilities owner_text_is caller db db'
                      _ Hfac).
    cbn [bookings db'].
    split; intros (id & b & Hb & Hvis & Hw); exists id, b;
      (split; [|split; [exact Hvis | exact Hw]]).
    + destruct (decide (id = v_id v)) as [->|Hne].
      * rewrite lookup_insert_eq in Hb. injection Hb as <-.
        rewrite (bookings_visible_facilities owner_text_is caller db db'
                   _ Hfac) in Hhidden. congruence.
      * by rewrite lookup_insert_ne in Hb.
    + rewrite lookup_insert_ne; [done|]. congruence.
Qed.

Lemma inserted_booking_blocks_its_slot_witness :
  check_booking_conflicts owner_is (signed_in customer) (Some court)
    (Some the_day) (Some (make_time 9 0 0)) (Some (make_time 10 0 0)) None
    booked_db = true
  ∧ check_booking_conflicts owner_is (signed_in admin) (Some court)
      (Some the_day) (Some (make_time 9 0 0)) (Some (make_time 10 0 0)) None
      booked_db
    = check_booking_conflicts owner_is (signed_in admin) (Some court)
        (Some the_day) (Some (make_time 9 0 0)) (Some (make_time 10 0 0)) None
        sample_db.
Proof.
  split.
  - apply (inserted_booking_blocks_its_slot owner_is (signed_in customer) 0
             (sample_values 1 (make_time 9 0 0) (make_time 10 0 0) 1)
             sample_db booked_db (make_time 9 0 0) (make_time 10 0 0)
             "pending" sample_booking);
      [vm_compute; reflexivity | reflexivity | reflexivity | reflexivity
      | reflexivity | by left | vm_compute; reflexivity
      | vm_compute; reflexivity].
  - apply (inserted_booking_blocks_its_slot owner_is (signed_in admin) 0
             (sample_values 1 (make_time 9 0 0) (make_time 10 0 0) 1)
             sample_db booked_db (make_time 9 0 0) (make_time 10 0 0)
             "pending" sample_booking);
      [vm_compute; reflexivity | reflexivity | reflexivity | reflexivity
      | reflexivity | by left | vm_compute; reflexivity
      | vm_compute; reflexivity].
Defined.

(** X8. Nothing asks that a booking end after it starts: an insert succeeds
    with its two times swapped exactly when it succeeds as given. *)
Theorem insert_ignores_order_of_times now v db s e :
  (∃ db', insert_booking now (set_times (Some s) (Some e) v) db = Ok db')
  ↔ (∃ db', insert_booking now (set_times (Some e) (Some s) v) db = Ok db').
Proof.
  assert (∀ s1 e1 s2 e2,
            (∃ db', insert_booking now (set_times (Some s1) (Some e1) v) db
                    = Ok db') →
            ∃ db', insert_booking now (set_times (Some s2) (Some e2) v) db
                   = Ok db') as Himp; [|split; apply Himp].
  intros s1 e1 s2 e2 [db' Hins]. apply insert_booking_admissible.
  apply insert_booking_Ok in Hins as (_ & _ & _ & _ & Hadm & _).
  exact Hadm.
Qed.

(** X9. A booking whose end is not after its start does not block its own
    interval: after it was inserted, the check for that interval answers,
    to every caller, as before. *)
Theorem inverted_booking_does_not_block owner_text_is caller now v db db' s e
    x :
  insert_booking now v db = Ok db' →
  v_start_time v = Some s → v_end_time v = Some e → e ≤ s →
  check_booking_conflicts owner_text_is caller (v_facility_id v)
    (v_booking_date v) (Some s) (Some e) x db'
  = check_booking_conflicts owner_text_is caller (v_facility_id v)
      (v_booking_date v) (Some s) (Some e) x db.
Proof.
  intros Hins Hs He Hle.
  apply insert_booking_stores in Hins
    as (NEW & u & -> & Hfree & _ & _ & _ & _ & _ & _ & Hf & Hd & Hs' & He' & _).
  set (db' := mk_database _ _ _ _ _).
  assert (facilities db' = facilities db) as Hfac by reflexivity.
  rewrite Hf, Hd. apply eq_true_iff_eq.
  rewrite !check_booking_conflicts_true.
  setoid_rewrite (bookings_visible_facilities owner_text_is caller db db'
                    _ Hfac).
  cbn [bookings db'].
  split; intros (id & b & Hb & Hvis & Hw); exists id, b;
    (split; [|split; [exact Hvis | exact Hw]]).
  - destruct (decide (id = v_id v)) as [->|Hne].
    + rewrite lookup_insert_eq in Hb. injection Hb as <-.
      apply conflict_where_true in Hw as (_ & _ & _ & _ & Hlt1 & Hlt2).
      assert (start_time NEW = s) by congruence.
      assert (end_time NEW = e) by congruence. lia.
    + by rewrite lookup_insert_ne in Hb.
  - rewrite lookup_insert_ne; [done|]. congruence.
Qed.

Lemma inverted_booking_does_not_block_witness :
  check_booking_conflicts owner_is service_role (Some court) (Some the_day)
    (Some (make_time 10 0 0)) (Some (make_time 9 0 0)) None inverted_db
  = check_booking_conflicts owner_is service_role (Some court) (Some the_day)
      (Some (make_time 10 0 0)) (Some (make_time 9 0 0)) None sample_db.
Proof.
  apply (inverted_booking_does_not_block owner_is service_role 0
           (sample_values 1 (make_time 10 0 0) (make_time 9 0 0) 1)
           sample_db inverted_db (make_time 10 0 0) (make_time 9 0 0) None);
    [vm_compute; reflexivity | reflexivity | reflexivity
    | vm_compute; discriminate].
Defined.

(** ** Durations *)

(** X10. Durations add up only nearly: for times of a day, the duration
    from [a] to [b] plus that from [b] to [c] is within [1.5 * 10 ^ -16] of
    the duration from [a] to [c], and not always equal to it (09:00, 09:10,
    09:20). The duration from a time to itself is zero, and swapping the
    times negates it. *)
Theorem calculate_booking_duration_adds_nearly a b c :
  a ≤ end_of_day → b ≤ end_of_day → c ≤ end_of_day →
  (Qabs (calculate_booking_duration a b + calculate_booking_duration b c
         - calculate_booking_duration a c)
   <= 15 # 100000000000000000)%Q
  ∧ ¬ (calculate_booking_duration (make_time 9 0 0) (make_time 9 10 0)
       + calculate_booking_duration (make_time 9 10 0) (make_time 9 20 0)
       == calculate_booking_duration (make_time 9 0 0) (make_time 9 20 0))%Q
  ∧ (calculate_booking_duration a a == 0)%Q
  ∧ (calculate_booking_duration b a == - calculate_booking_duration a b)%Q.
Proof.
  intros Ha Hb Hc.
  split; [|split; [vm_compute; discriminate|split;
                   [apply duration_self | apply duration_opp]]].
  pose proof (duration_close a b Ha Hb) as Hab.
  pose proof (duration_close b c Hb Hc) as Hbc.
  pose proof (duration_close a c Ha Hc) as Hac.
  set (dab := calculate_booking_duration a b) in *.
  set (dbc := calculate_booking_duration b c) in *.
  set (dac := calculate_booking_duration a c) in *.
  set (eab := ((seconds b - seconds a) / 3600)%Q) in *.
  set (ebc := ((seconds c - seconds b) / 3600)%Q) in *.
  set (eac := ((seconds c - seconds a) / 3600)%Q) in *.
  assert (dab + dbc - dac == (dab - eab) + (dbc - ebc) + - (dac - eac))%Q
    as ->.
  { unfold eab, ebc, eac. field. }
  eapply Qle_trans; [apply Qabs_triangle|].
  rewrite Qabs_opp.
  assert (15 # 100000000000000000
          == (5 # 100000000000000000) + (5 # 100000000000000000)
             + (5 # 100000000000000000))%Q as -> by reflexivity.
  apply Qplus_le_compat; [|exact Hac].
  eapply Qle_trans; [apply Qabs_triangle|].
  by apply Qplus_le_compat.
Qed.

Lemma calculate_booking_duration_adds_nearly_witness :
  (Qabs (calculate_booking_duration (make_time 9 0 0) (make_time 9 10 0)
         + calculate_booking_duration (make_time 9 10 0) (make_time 9 20 0)
         - calculate_booking_duration (make_time 9 0 0) (make_time 9 20 0))
   <= 15 # 100000000000000000)%Q.
Proof.
  apply (calculate_booking_duration_adds_nearly (make_time 9 0 0)
           (make_time 9 10 0) (make_time 9 20 0)); vm_compute; discriminate.
Defined.

(** X11. The duration is positive exactly when the end is after the start,
    and zero exactly when the two are equal. *)
Theorem calculate_booking_duration_sign p_start_time p_end_time :
  ((0 < calculate_booking_duration p_start_time p_end_time)%Q
   ↔ p_start_time < p_end_time)
  ∧ ((calculate_booking_duration p_start_time p_end_time == 0)%Q
     ↔ p_start_time = p_end_time).
Proof. apply duration_sign. Qed.

(** Rounding to hundredths is off by at most half a hundredth. *)
Lemma round_hundredths_close q :
  (Qabs (inject_Z (round_hundredths q) - 100 * q) <= 1 # 2)%Q.
Proof.
  destruct q as [n d]. unfold round_hundredths. simpl.
  set (m := (n * 100)%Z). set (D := Z.pos d).
  assert (0 < D)%Z as HD by (unfold D; lia).
  pose proof (Z.div_mod (2 * Z.abs m + D) (2 * D) ltac:(lia)) as Hdiv.
  pose proof (Z.mod_pos_bound (2 * Z.abs m + D) (2 * D) ltac:(lia)) as Hmod.
  set (k := ((2 * Z.abs m + D) / (2 * D))%Z) in *.
  apply Qabs_Qle_condition.
  unfold Qle, Qminus, Qplus, Qopp, Qmult, inject_Z. simpl.
  fold D. replace (100 * n)%Z with m by (unfold m; lia).
  destruct (Z.sgn_spec m) as [[Hm ->] | [[Hm ->] | [Hm ->]]]; nia.
Qed.

(** X12. The duration between two times of a day fits [total_hours]:
    stored in the [DECIMAL(4,2)] column it is not out of range, and the
    stored value is within half a hundredth of an hour of it. *)
Theorem calculate_booking_duration_fits_total_hours p_start_time p_end_time :
  p_start_time ≤ end_of_day → p_end_time ≤ end_of_day →
  ∃ h, decimal_in 4 (calculate_booking_duration p_start_time p_end_time)
       = Some h
       ∧ (Qabs (inject_Z h / 100
                - calculate_booking_duration p_start_time p_end_time)
          <= 5 # 1000)%Q.
Proof.
  intros Hs He. unfold decimal_in.
  set (q := calculate_booking_duration p_start_time p_end_time).
  pose proof (round_hundredths_close q) as Hclose.
  assert (Qabs (100 * q) <= 2401)%Q as Hq.
  { pose proof (duration_close p_start_time p_end_time Hs He) as Hd.
    fold q in Hd. rewrite exact_hours in Hd.
    set (i := time_mi_time p_end_time p_start_time) in *.
    pose proof (day_interval _ _ Hs He) as Hi. fold i in Hi.
    assert (Qabs (i # 3600000000) <= 24)%Q as Hexact.
    { apply Qabs_Qle_condition. unfold Qle. simpl. lia. }
    assert (q == (q - (i # 3600000000)) + (i # 3600000000))%Q as Heq by ring.
    assert (Qabs q <= 2401 # 100)%Q as Hqabs.
    { rewrite Heq. eapply Qle_trans; [apply Qabs_triangle|].
      assert (2401 # 100 == (1 # 100) + 24)%Q as -> by reflexivity.
      apply Qplus_le_compat; [|exact Hexact].
      eapply Qle_trans; [exact Hd | discriminate]. }
    rewrite Qabs_Qmult.
    assert (2401 == Qabs 100 * (2401 # 100))%Q as -> by reflexivity.
    apply Qmult_le_l; [reflexivity | exact Hqabs]. }
  assert (Z.abs (round_hundredths q) < 10 ^ Z.of_N 4)%Z as Hrange.
  { apply Qabs_Qle_condition in Hclose, Hq.
    assert ((inject_Z (round_hundredths q) - 100 * q) + 100 * q
            == inject_Z (round_hundredths q))%Q as Heq by ring.
    assert (inject_Z (round_hundredths q) <= (1 # 2) + 2401)%Q as Hup.
    { rewrite <-Heq. apply Qplus_le_compat; [apply Hclose | apply Hq]. }
    assert (- (1 # 2) + - (2401) <= inject_Z (round_hundredths q))%Q as Hlow.
    { rewrite <-Heq. apply Qplus_le_compat; [apply Hclose | apply Hq]. }
    unfold Qle, inject_Z in Hup, Hlow. simpl in Hup, Hlow.
    change (10 ^ Z.of_N 4)%Z with 10000%Z. lia. }
  apply Z.ltb_lt in Hrange. rewrite Hrange.
  eexists. split; [reflexivity|].
  assert (inject_Z (round_hundredths q) / 100 - q
          == (inject_Z (round_hundredths q) - 100 * q) * (1 # 100))%Q
    as -> by field.
  rewrite Qabs_Qmult.
  assert (5 # 1000 == (1 # 2) * (1 # 100))%Q as -> by reflexivity.
  apply Qmult_le_compat_r; [exact Hclose | discriminate].
Qed.

Lemma calculate_booking_duration_fits_total_hours_witness :
  ∃ h, decimal_in 4
         (calculate_booking_duration (make_time 9 0 0) (make_time 9 10 0))
       = Some h
       ∧ (Qabs (inject_Z h / 100
                - calculate_booking_duration (make_time 9 0 0)
                    (make_time 9 10 0))
          <= 5 # 1000)%Q.
Proof.
  apply (calculate_booking_duration_fits_total_hours (make_time 9 0 0)
           (make_time 9 10 0)); vm_compute; discriminate.
Defined.

(** ** The other endpoints of [registerRoutes] *)

Lemma strict_equals_string v s :
  Routes.strict_equals v (Routes.JString s) = true ↔ v = Routes.JString s.
Proof.
  destruct v; simpl; try (split; [discriminate | discriminate]).
  rewrite bool_decide_eq_true. split; congruence.
Qed.

(** Only an object has a property that is a string. *)
Lemma get_string_truthy v k s :
  Routes.get v k = Routes.JString s → Routes.truthy v = true.
Proof. by destruct v. Qed.

(** X13. [GET /api/facilities/:id] answers 404 with the message ['Facility
    not found'] exactly when no facility has that id, and otherwise 200
    with the first facility that has it. *)
Theorem get_facility_spec mockFacilities id :
  (Forall (λ f, Routes.get f "id" ≠ Routes.JString id) mockFacilities
   ∧ Routes.get_facility mockFacilities id
     = Routes.mk_response 404
         (Routes.JObject [("message", Routes.JString "Facility not found")]))
  ∨ ∃ before f after,
      mockFacilities = before ++ f :: after
      ∧ Forall (λ g, Routes.get g "id" ≠ Routes.JString id) before
      ∧ Routes.get f "id" = Routes.JString id
      ∧ Routes.get_facility mockFacilities id = Routes.mk_response 200 f.
Proof.
  unfold Routes.get_facility.
  induction mockFacilities as [|g rest IH]; simpl.
  { left. by split. }
  destruct (Routes.strict_equals (Routes.get g "id") (Routes.JString id))
    eqn:Hg.
  - apply strict_equals_string in Hg. right. exists [], g, rest.
    rewrite (get_string_truthy _ _ _ Hg). by repeat split.
  - assert (Routes.get g "id" ≠ Routes.JString id) as Hne.
    { intros Heq. apply strict_equals_string in Heq. congruence. }
    destruct IH as [[Hall Hres] | (before & f & after & -> & Hall & Hf & Hres)].
    + left. split; [by constructor | done].
    + right. exists (g :: before), f, after. by repeat split; [constructor|..].
Qed.

Lemma filter_sublist {A} (p : A → bool) (l : list A) :
  List.filter p l `sublist_of` l.
Proof.
  induction l as [|a l IH]; simpl; [done|].
  destruct (p a); [by apply sublist_skip | by apply sublist_cons].
Qed.

(** X26. [GET /api/facilities/:id/courts] always answers 200, with or
    without a facility of that id: with the courts whose [facilityId] is
    the string [id], in the order of [mockCourts]. A court whose
    [facilityId] is not a string (a number, say) is listed for no id. *)
Theorem get_facility_courts_spec mockCourts id :
  ∃ l, Routes.get_facility_courts mockCourts id
       = Routes.mk_response 200 (Routes.JArray l)
       ∧ l `sublist_of` mockCourts
       ∧ ∀ c, c ∈ l
              ↔ c ∈ mockCourts
                ∧ Routes.get c "facilityId" = Routes.JString id.
Proof.
  eexists. split; [reflexivity|]. split; [apply filter_sublist|].
  intros c. rewrite !list_elem_of_In, List.filter_In.
  by rewrite strict_equals_string.
Qed.

(** X14. A booking that [POST /api/bookings] stored for a [userId] that is a
    string is what [GET /api/bookings] with that [userId] lists last, after
    the bookings it listed before. *)
Theorem posted_booking_is_listed now_iso body bs bs' r u :
  Routes.post_bookings now_iso body bs = (bs', r) →
  Routes.res_status r = 201 →
  Routes.get (Routes.js_or body (Routes.JObject [])) "userId"
  = Routes.JString u →
  ∃ l, Routes.get_bookings (Routes.JString u) bs
       = Routes.mk_response 200 (Routes.JArray l)
       ∧ Routes.get_bookings (Routes.JString u) bs'
         = Routes.mk_response 200 (Routes.JArray (l ++ [Routes.res_json r])).
Proof.
  unfold Routes.post_bookings. intros Hpost Hstatus Hu.
  rewrite Hu in Hpost.
  destruct (Routes.truthy (Routes.JString u)) eqn:Htruthy;
    [|by simpl in Hpost; simplify_eq].
  case_match; simplify_eq.
  unfold Routes.get_bookings. rewrite Htruthy.
  eexists. split; [reflexivity|].
  rewrite List.filter_app. simpl.
  by rewrite bool_decide_eq_true_2.
Qed.

Lemma posted_booking_is_listed_witness :
  ∃ l, Routes.get_bookings (Routes.JString "3") []
       = Routes.mk_response 200 (Routes.JArray l)
       ∧ Routes.get_bookings (Routes.JString "3")
           (Routes.post_bookings "2025-09-24T06:21:55.000Z" sample_body []).1
         = Routes.mk_response 200
             (Routes.JArray
                (l ++ [Routes.res_json
                         (Routes.post_bookings "2025-09-24T06:21:55.000Z"
                            sample_body []).2])).
Proof.
  apply (posted_booking_is_listed "2025-09-24T06:21:55.000Z" sample_body []
           (Routes.post_bookings "2025-09-24T06:21:55.000Z" sample_body []).1
           (Routes.post_bookings "2025-09-24T06:21:55.000Z" sample_body []).2
           "3"); reflexivity.
Defined.

(** X15. A booking posted with a [userId] that is not a string (a number,
    say) is in no listing by user: [GET /api/bookings] with any non-empty
    [userId] answers after the request as it did before. *)
Theorem booking_without_string_user_is_not_listed now_iso body bs q :
  (∀ s, Routes.get (Routes.js_or body (Routes.JObject [])) "userId"
        ≠ Routes.JString s) →
  q ≠ "" →
  Routes.get_bookings (Routes.JString q)
    (Routes.post_bookings now_iso body bs).1
  = Routes.get_bookings (Routes.JString q) bs.
Proof.
  intros Hu Hq. unfold Routes.post_bookings. case_match; [done|].
  unfold Routes.get_bookings. simpl.
  rewrite bool_decide_eq_false_2 by done. simpl.
  rewrite List.filter_app. simpl.
  destruct (Routes.strict_equals _ (Routes.JString q)) eqn:Heq.
  - apply strict_equals_string in Heq. by destruct (Hu q).
  - by rewrite app_nil_r.
Qed.

Lemma booking_without_string_user_is_not_listed_witness :
  Routes.res_status
    (Routes.post_bookings "2025-09-24T06:21:55.000Z" numeric_user_body []).2
  = 201
  ∧ Routes.get_bookings (Routes.JString "3")
      (Routes.post_bookings "2025-09-24T06:21:55.000Z" numeric_user_body []).1
    = Routes.get_bookings (Routes.JString "3") [].
Proof.
  split; [reflexivity|].
  apply (booking_without_string_user_is_not_listed
           "2025-09-24T06:21:55.000Z" numeric_user_body [] "3");
    [intros s; vm_compute; discriminate | discriminate].
Defined.

Lemma post_bookings_keeps_ids n now_iso body bs :
  (n ≤ length bs)%nat →
  (∀ i b, bs !! i = Some b → (n ≤ i)%nat →
          Routes.get b "id" = Routes.JString (pretty (S i))) →
  (n ≤ length (Routes.post_bookings now_iso body bs).1)%nat
  ∧ ∀ i b, (Routes.post_bookings now_iso body bs).1 !! i = Some b →
           (n ≤ i)%nat →
           Routes.get b "id" = Routes.JString (pretty (S i)).
Proof.
  intros Hn Hids. unfold Routes.post_bookings. case_match; [done|]. simpl.
  split; [rewrite length_app; lia|].
  intros i b Hb Hi. apply lookup_app_Some in Hb as [Hb | [Hlen Hb]].
  - by apply Hids.
  - apply list_lookup_singleton_Some in Hb as [Hi0 <-]. simpl.
    do 2 f_equal. lia.
Qed.

Lemma post_all_keeps_ids n reqs bs :
  (n ≤ length bs)%nat →
  (∀ i b, bs !! i = Some b → (n ≤ i)%nat →
          Routes.get b "id" = Routes.JString (pretty (S i))) →
  ∀ i b, Routes.post_all reqs bs !! i = Some b → (n ≤ i)%nat →
         Routes.get b "id" = Routes.JString (pretty (S i)).
Proof.
  revert bs. induction reqs as [|req reqs IH]; intros bs Hn Hids; [done|].
  simpl. destruct (post_bookings_keeps_ids n req.1 req.2 bs Hn Hids).
  by apply IH.
Qed.

(** X16. The id of a booking that [POST /api/bookings] stored is its
    position in the list, counted from one, in decimal; so no two bookings
    stored by requests share an id, whatever the requests were. (The list
    starts as [mockBookings]; its entries keep the ids they came with.) *)
Theorem posted_ids_are_positions reqs mockBookings i b :
  Routes.post_all reqs mockBookings !! i = Some b →
  (length mockBookings ≤ i)%nat →
  Routes.get b "id" = Routes.JString (pretty (S i))
  ∧ ∀ j c, Routes.post_all reqs mockBookings !! j = Some c →
           (length mockBookings ≤ j)%nat → j ≠ i →
           Routes.get c "id" ≠ Routes.get b "id".
Proof.
  assert (∀ k d, Routes.post_all reqs mockBookings !! k = Some d →
                 (length mockBookings ≤ k)%nat →
                 Routes.get d "id" = Routes.JString (pretty (S k))) as Hids.
  { apply post_all_keeps_ids; [done|].
    intros k d Hd Hk. apply lookup_lt_Some in Hd. lia. }
  intros Hb Hi. split; [by apply Hids|].
  intros j c Hc Hj Hne. rewrite (Hids i b Hb Hi), (Hids j c Hc Hj).
  intros [= Heq]. apply (inj pretty) in Heq. lia.
Qed.

Lemma posted_ids_are_positions_witness :
  ∃ b, Routes.post_all
         [("2025-09-24T06:21:55.000Z", sample_body);
          ("2025-09-24T06:21:56.000Z", empty_user_body);
          ("2025-09-24T06:21:57.000Z", numeric_user_body)]
         sample_bookings !! 3%nat = Some b
       ∧ Routes.get b "id" = Routes.JString "4".
Proof.
  eexists. split; [vm_compute; reflexivity|].
  apply (posted_ids_are_positions
           [("2025-09-24T06:21:55.000Z", sample_body);
            ("2025-09-24T06:21:56.000Z", empty_user_body);
            ("2025-09-24T06:21:57.000Z", numeric_user_body)]
           sample_bookings 3);
    [vm_compute; reflexivity | vm_compute; lia].
Defined.

(** ** Objects and spreading *)

Lemma lookup_set_prop k k' v props :
  Routes.lookup_prop k (Routes.set_prop k' v props)
  = if bool_decide (k' = k) then v else Routes.lookup_prop k props.
Proof.
  induction props as [|[k1 v1] rest IH]; simpl.
  - by case_bool_decide.
  - destruct (decide (k1 = k')) as [->|Hne1].
    + rewrite (bool_decide_eq_true_2 (k' = k')) by done. simpl.
      by case_bool_decide.
    + rewrite (bool_decide_eq_false_2 (k1 = k')) by done. simpl.
      rewrite IH. destruct (decide (k1 = k)) as [->|Hne].
      * rewrite (bool_decide_eq_true_2 (k = k)) by done.
        by rewrite (bool_decide_eq_false_2 (k' = k)) by done.
      * by rewrite (bool_decide_eq_false_2 (k1 = k)) by done.
Qed.

Lemma lookup_prop_app_cong k a b b' :
  Routes.lookup_prop k b = Routes.lookup_prop k b' →
  Routes.lookup_prop k (a ++ b) = Routes.lookup_prop k (a ++ b').
Proof.
  intros Hb. induction a as [|[k1 v1] a IH]; simpl; [done|]. by rewrite IH.
Qed.

(** Reading a property of [{ ...target, ...source }]: the last definition
    of the name in [source], or else that of [target]. *)
Lemma lookup_spread k target source :
  Routes.lookup_prop k (Routes.spread target source)
  = Routes.lookup_prop k (reverse (Routes.own_props source) ++ target).
Proof.
  unfold Routes.spread. generalize (Routes.own_props source). intros src.
  revert target. induction src as [|[k1 v1] src IH]; intros target; [done|].
  simpl. rewrite IH, reverse_cons, <-app_assoc.
  apply lookup_prop_app_cong. simpl. apply lookup_set_prop.
Qed.

Lemma lookup_prop_absent k props :
  k ∉ props.*1 → Routes.lookup_prop k props = Routes.JUndefined.
Proof.
  induction props as [|[k1 v1] rest IH]; simpl; [done|].
  rewrite not_elem_of_cons. intros [Hne Hrest].
  rewrite bool_decide_eq_false_2 by done. by apply IH.
Qed.

Lemma lookup_prop_present k v props :
  NoDup props.*1 → (k, v) ∈ props → Routes.lookup_prop k props = v.
Proof.
  induction props as [|[k1 v1] rest IH]; simpl.
  { intros _ Hin. by apply elem_of_nil in Hin. }
  rewrite NoDup_cons, elem_of_cons. intros [Hk1 Hrest] [[= -> ->] | Hin].
  - by rewrite bool_decide_eq_true_2.
  - rewrite bool_decide_eq_false_2; [by apply IH|].
    intros ->. apply Hk1. apply list_elem_of_fmap. by exists (k, v).
Qed.

Lemma lookup_prop_app k a b :
  Routes.lookup_prop k (a ++ b)
  = if bool_decide (k ∈ a.*1) then Routes.lookup_prop k a
    else Routes.lookup_prop k b.
Proof.
  induction a as [|[k1 v1] a IH].
  { rewrite fmap_nil. by rewrite bool_decide_eq_false_2 by apply not_elem_of_nil. }
  rewrite fmap_cons. cbn [app Routes.lookup_prop fst]. rewrite IH.
  destruct (decide (k1 = k)) as [->|Hne].
  - rewrite (bool_decide_eq_true_2 (k = k)) by done.
    rewrite bool_decide_eq_true_2; [done|]. apply elem_of_cons. by left.
  - rewrite (bool_decide_eq_false_2 (k1 = k)) by done.
    destruct (decide (k ∈ a.*1)) as [Hin|Hout].
    + rewrite (bool_decide_eq_true_2 (k ∈ a.*1)) by done.
      rewrite bool_decide_eq_true_2; [done|]. apply elem_of_cons. by right.
    + rewrite (bool_decide_eq_false_2 (k ∈ a.*1)) by done.
      rewrite bool_decide_eq_false_2; [done|].
      rewrite not_elem_of_cons. split; [congruence|done].
Qed.

(** Spreading a source that defines [k] once gives [k] that value; one that
    does not define it leaves [k] as in the target. *)
Lemma lookup_spread_present k v target source :
  NoDup (Routes.own_props source).*1 → (k, v) ∈ Routes.own_props source →
  Routes.lookup_prop k (Routes.spread target source) = v.
Proof.
  intros Hnodup Hin. rewrite lookup_spread, lookup_prop_app.
  rewrite bool_decide_eq_true_2.
  - apply lookup_prop_present.
    + by rewrite fmap_reverse, reverse_Permutation.
    + by apply elem_of_reverse.
  - rewrite fmap_reverse, elem_of_reverse.
    apply list_elem_of_fmap. by exists (k, v).
Qed.

Lemma lookup_spread_absent k target source :
  k ∉ (Routes.own_props source).*1 →
  Routes.lookup_prop k (Routes.spread target source)
  = Routes.lookup_prop k target.
Proof.
  intros Hout. rewrite lookup_spread, lookup_prop_app.
  rewrite bool_decide_eq_false_2; [done|].
  by rewrite fmap_reverse, elem_of_reverse.
Qed.

Lemma set_prop_fresh k v props :
  k ∉ props.*1 → Routes.set_prop k v props = props ++ [(k, v)].
Proof.
  induction props as [|[k1 v1] rest IH]; simpl; [done|].
  rewrite not_elem_of_cons. intros [Hne Hrest].
  rewrite bool_decide_eq_false_2 by done. by rewrite IH.
Qed.

(** Copying an object gives the object: [{ ...o }] has the properties of
    [o], in order. *)
Lemma spread_copies props target :
  NoDup (target ++ props).*1 →
  Routes.spread target (Routes.JObject props) = target ++ props.
Proof.
  unfold Routes.spread. simpl. revert target.
  induction props as [|[k v] rest IH]; intros target Hnodup; simpl.
  { by rewrite app_nil_r. }
  rewrite set_prop_fresh.
  - rewrite IH; [by rewrite <-app_assoc|]. by rewrite <-app_assoc.
  - rewrite fmap_app in Hnodup. apply NoDup_app in Hnodup as (_ & Hdisj & _).
    intros Hin. apply (Hdisj k Hin). simpl. apply elem_of_cons. by left.
Qed.

Lemma default_profile_names_once u : NoDup (Routes.default_profile u).*1.
Proof. simpl. compute_done. Qed.

(** ** The profile endpoints *)

Lemma spread_nothing target source :
  Routes.own_props source = [] → Routes.spread target source = target.
Proof. unfold Routes.spread. by intros ->. Qed.

Lemma ensureProfile_stored u ps ps1 profile :
  Routes.ensureProfile u ps = (ps1, profile) →
  ps1 !! u = Some profile
  ∧ profile = default (Routes.default_profile u) (ps !! u).
Proof.
  unfold Routes.ensureProfile.
  destruct (ps !! u) as [p|] eqn:Hp; intros [= <- <-]; [done|].
  by rewrite lookup_insert_eq.
Qed.

(** X17. [GET /api/profile/:userId] stores the default profile for a user
    that has none, and leaves a stored one alone; asking again gives the
    same answer and changes nothing more. *)
Theorem get_profile_registers_once u ps :
  (Routes.get_profile u ps).1 !! u
  = Some (default (Routes.default_profile u) (ps !! u))
  ∧ Routes.get_profile u (Routes.get_profile u ps).1 = Routes.get_profile u ps.
Proof.
  unfold Routes.get_profile, Routes.ensureProfile.
  destruct (ps !! u) as [p|] eqn:Hp; simpl.
  - by rewrite Hp.
  - by rewrite lookup_insert_eq.
Qed.

(** X18. What [PUT] and [PATCH /api/profile/:userId] answer is what [GET]
    answers afterwards, and the [GET] changes nothing. *)
Theorem profile_is_read_back u body ps :
  Routes.get_profile u (Routes.put_profile u body ps).1
  = Routes.put_profile u body ps
  ∧ Routes.get_profile u (Routes.patch_profile u body ps).1
    = Routes.patch_profile u body ps.
Proof.
  unfold Routes.get_profile, Routes.put_profile, Routes.patch_profile.
  split.
  - cbv zeta. cbn [fst]. unfold Routes.ensureProfile.
    by rewrite lookup_insert_eq.
  - destruct (Routes.ensureProfile u ps) as [ps1 existing].
    cbv zeta. cbn [fst]. unfold Routes.ensureProfile.
    by rewrite lookup_insert_eq.
Qed.

(** X19. [PUT /api/profile/:userId] replaces the profile: what was stored
    for the user makes no difference; the answer reports the [userId] of
    the path and has no property besides it and the five fields. *)
Theorem put_profile_replaces u body ps old k :
  Routes.put_profile u body (<[u := old]> ps) = Routes.put_profile u body ps
  ∧ Routes.get (Routes.res_json (Routes.put_profile u body ps).2) "userId"
    = Routes.JString u
  ∧ (k ∉ ["userId"; "fullName"; "phone"; "address"; "businessName";
          "businessAddress"] →
     Routes.get (Routes.res_json (Routes.put_profile u body ps).2) k
     = Routes.JUndefined).
Proof.
  unfold Routes.put_profile. split; [|split].
  - by rewrite insert_insert_eq.
  - cbv zeta. cbn [snd Routes.res_json].
    rewrite spread_copies by (simpl; compute_done). done.
  - intros Hk. cbv zeta. cbn [snd Routes.res_json].
    rewrite spread_copies by (simpl; compute_done).
    apply lookup_prop_absent. exact Hk.
Qed.

Lemma put_profile_replaces_witness :
  Routes.get
    (Routes.res_json (Routes.put_profile "3" phone_update ∅).2) "nickname"
  = Routes.JUndefined.
Proof.
  apply (put_profile_replaces "3" phone_update ∅ [] "nickname").
  compute_done.
Defined.

(** X20. [PATCH /api/profile/:userId] merges: the profile stored afterwards
    has, for a name the body defines, the body's value, and for any other
    name what the profile had before (the default profile, if the user had
    none). *)
Theorem patch_profile_merges u body ps before k :
  before = default (Routes.default_profile u) (ps !! u) →
  NoDup before.*1 →
  NoDup (Routes.own_props (Routes.js_or body (Routes.JObject []))).*1 →
  ∃ merged,
    (Routes.patch_profile u body ps).1 !! u = Some merged
    ∧ (∀ v, (k, v) ∈ Routes.own_props (Routes.js_or body (Routes.JObject []))
            → Routes.lookup_prop k merged = v)
    ∧ (k ∉ (Routes.own_props (Routes.js_or body (Routes.JObject []))).*1 →
       Routes.lookup_prop k merged = Routes.lookup_prop k before).
Proof.
  intros -> Hbefore Hbody. unfold Routes.patch_profile.
  assert (Routes.ensureProfile u ps
          = ((Routes.ensureProfile u ps).1,
             default (Routes.default_profile u) (ps !! u))) as ->.
  { unfold Routes.ensureProfile. by destruct (ps !! u). }
  simpl. rewrite lookup_insert_eq. eexists. split; [reflexivity|].
  rewrite (spread_copies _ []) by done. simpl. split.
  - intros v Hv. by apply lookup_spread_present.
  - intros Hk. by apply lookup_spread_absent.
Qed.

Lemma patch_profile_merges_witness :
  ∃ merged,
    (Routes.patch_profile "3" phone_update ∅).1 !! "3" = Some merged
    ∧ (∀ v, ("phone", v)
              ∈ Routes.own_props
                  (Routes.js_or phone_update (Routes.JObject []))
            → Routes.lookup_prop "phone" merged = v)
    ∧ ("phone"
         ∉ (Routes.own_props
              (Routes.js_or phone_update (Routes.JObject []))).*1 →
       Routes.lookup_prop "phone" merged
       = Routes.lookup_prop "phone" (Routes.default_profile "3")).
Proof.
  apply (patch_profile_merges "3" phone_update ∅
           (Routes.default_profile "3") "phone");
    [reflexivity | compute_done | compute_done].
Defined.

(** X21. A [PATCH] whose body defines nothing (no body, [{}], a number, a
    boolean) is a [GET]: same answer, same profiles afterwards. *)
Theorem empty_patch_is_get u body ps :
  Routes.own_props (Routes.js_or body (Routes.JObject [])) = [] →
  NoDup (default (Routes.default_profile u) (ps !! u)).*1 →
  Routes.patch_profile u body ps = Routes.get_profile u ps.
Proof.
  intros Hbody Hstored.
  unfold Routes.patch_profile, Routes.get_profile.
  destruct (Routes.ensureProfile u ps) as [ps1 existing] eqn:Hensure.
  apply ensureProfile_stored in Hensure as [Hps1 ->].
  rewrite (spread_nothing _ _ Hbody), (spread_copies _ []) by done.
  cbn [app]. by rewrite insert_id.
Qed.

Lemma empty_patch_is_get_witness :
  Routes.patch_profile "3" Routes.JUndefined ∅ = Routes.get_profile "3" ∅.
Proof.
  apply (empty_patch_is_get "3" Routes.JUndefined ∅);
    [reflexivity | compute_done].
Defined.

Lemma elem_of_keys_set_prop k0 k v props :
  k0 ∈ (Routes.set_prop k v props).*1 ↔ k0 = k ∨ k0 ∈ props.*1.
Proof.
  induction props as [|[k1 v1] rest IH]; simpl.
  - rewrite elem_of_cons, elem_of_nil. tauto.
  - destruct (decide (k1 = k)) as [->|Hne].
    + rewrite bool_decide_eq_true_2 by done. simpl.
      rewrite !elem_of_cons. tauto.
    + rewrite bool_decide_eq_false_2 by done. simpl.
      rewrite !elem_of_cons, IH. tauto.
Qed.

Lemma NoDup_keys_set_prop k v props :
  NoDup props.*1 → NoDup (Routes.set_prop k v props).*1.
Proof.
  induction props as [|[k1 v1] rest IH]; simpl.
  - intros _. apply NoDup_singleton.
  - rewrite NoDup_cons. intros [Hk1 Hrest].
    destruct (decide (k1 = k)) as [->|Hne].
    + rewrite bool_decide_eq_true_2 by done. simpl. by apply NoDup_cons.
    + rewrite bool_decide_eq_false_2 by done. simpl. apply NoDup_cons.
      split; [|by apply IH].
      rewrite elem_of_keys_set_prop. intros [-> | Hin]; [done|].
      by apply Hk1.
Qed.

(** An object built by spreading has each name once, and has the names of
    the source. *)
Lemma spread_keys target source :
  NoDup target.*1 →
  NoDup (Routes.spread target source).*1
  ∧ ∀ k, k ∈ (Routes.own_props source).*1 →
         k ∈ (Routes.spread target source).*1.
Proof.
  unfold Routes.spread. generalize (Routes.own_props source). intros src.
  revert target. induction src as [|[k1 v1] src IH]; intros target Hnodup.
  { split; [done|]. intros k Hk. by apply elem_of_nil in Hk. }
  simpl.
  destruct (IH (Routes.set_prop k1 v1 target)
              (NoDup_keys_set_prop _ _ _ Hnodup)) as [Hnd Hkeys].
  split; [done|]. intros k Hk. apply elem_of_cons in Hk as [-> | Hk].
  - clear IH Hnd Hkeys.
    assert (k1 ∈ (Routes.set_prop k1 v1 target).*1) as Hin.
    { apply elem_of_keys_set_prop. by left. }
    revert Hin. generalize (Routes.set_prop k1 v1 target). clear.
    induction src as [|[k2 v2] src IH]; intros t Hin; [done|].
    simpl. apply IH. apply elem_of_keys_set_prop. by right.
  - by apply Hkeys.
Qed.

(** The stored profiles stay objects: each has each name once after a
    request, whatever its body, if each had before. *)
Lemma profiles_keep_names_once u body ps :
  map_Forall (λ _ p, NoDup p.*1) ps →
  map_Forall (λ _ p, NoDup p.*1) (Routes.get_profile u ps).1
  ∧ map_Forall (λ _ p, NoDup p.*1) (Routes.put_profile u body ps).1
  ∧ map_Forall (λ _ p, NoDup p.*1) (Routes.patch_profile u body ps).1.
Proof.
  intros Hps.
  assert (map_Forall (λ _ p, NoDup p.*1) (Routes.ensureProfile u ps).1)
    as Hensured.
  { unfold Routes.ensureProfile. destruct (ps !! u) as [p|] eqn:Hp; [done|].
    apply map_Forall_insert_2; [apply default_profile_names_once|done]. }
  unfold Routes.get_profile, Routes.put_profile, Routes.patch_profile.
  destruct (Routes.ensureProfile u ps) as [ps1 profile]. simpl in Hensured.
  repeat split; [done| |].
  - apply map_Forall_insert_2; [compute_done|done].
  - apply map_Forall_insert_2; [|done].
    apply spread_keys, spread_keys. apply NoDup_nil_2.
Qed.

Lemma elem_of_lookup_prop k props :
  k ∈ props.*1 → (k, Routes.lookup_prop k props) ∈ props.
Proof.
  induction props as [|[k1 v1] rest IH]; simpl.
  { intros Hin. by apply elem_of_nil in Hin. }
  rewrite elem_of_cons. destruct (decide (k1 = k)) as [->|Hne].
  - intros _. rewrite bool_decide_eq_true_2 by done. apply elem_of_cons.
    by left.
  - intros [-> | Hin]; [done|]. rewrite bool_decide_eq_false_2 by done.
    apply elem_of_cons. right. by apply IH.
Qed.

(** X22. The [userId] an answer of the profile endpoints reports is the
    profile's own, if it has one: after a [PATCH] whose body defines
    [userId], the answer and the answers of later [GET]s report the body's
    value, not the [userId] of the path. *)
Theorem patched_user_id_is_reported u body ps v :
  NoDup (Routes.own_props (Routes.js_or body (Routes.JObject []))).*1 →
  ("userId", v) ∈ Routes.own_props (Routes.js_or body (Routes.JObject [])) →
  Routes.get (Routes.res_json (Routes.patch_profile u body ps).2) "userId" = v
  ∧ Routes.get
      (Routes.res_json
         (Routes.get_profile u (Routes.patch_profile u body ps).1).2)
      "userId" = v.
Proof.
  intros Hnodup Hin.
  assert (Routes.get (Routes.res_json (Routes.patch_profile u body ps).2)
            "userId" = v) as Hpatch.
  { unfold Routes.patch_profile.
    destruct (Routes.ensureProfile u ps) as [ps1 existing].
    cbv zeta. cbn [snd Routes.res_json Routes.get].
    set (copy := Routes.spread [] (Routes.JObject existing)).
    destruct (spread_keys [] (Routes.JObject existing)) as [Hcopy _];
      [apply NoDup_nil_2|]. fold copy in Hcopy.
    destruct (spread_keys copy (Routes.js_or body (Routes.JObject [])) Hcopy)
      as [Hmerged Hkeys].
    apply lookup_spread_present; [done|]. simpl.
    rewrite <-(lookup_spread_present "userId" v copy
                 (Routes.js_or body (Routes.JObject [])) Hnodup Hin) at 1.
    apply elem_of_lookup_prop, Hkeys.
    apply list_elem_of_fmap. by exists ("userId", v). }
  split; [done|].
  assert (Routes.get_profile u (Routes.patch_profile u body ps).1
          = Routes.patch_profile u body ps) as ->; [|done].
  unfold Routes.get_profile, Routes.patch_profile.
  destruct (Routes.ensureProfile u ps) as [ps1 existing].
  cbv zeta. cbn [fst]. unfold Routes.ensureProfile.
  by rewrite lookup_insert_eq.
Qed.

Lemma patched_user_id_is_reported_witness :
  Routes.get (Routes.res_json (Routes.patch_profile "3" user_id_update ∅).2)
    "userId" = Routes.JString "1"
  ∧ Routes.get
      (Routes.res_json
         (Routes.get_profile "3"
            (Routes.patch_profile "3" user_id_update ∅).1).2)
      "userId" = Routes.JString "1".
Proof.
  apply (patched_user_id_is_reported "3" user_id_update ∅
           (Routes.JString "1"));
    [compute_done | simpl; apply elem_of_cons; left; reflexivity].
Defined.

(** X23. The profile endpoints touch the profile of the user of the path
    only: that of any other user is after a [GET], a [PUT] or a [PATCH] what
    it was before. *)
Theorem other_profiles_are_untouched u u' body ps :
  u' ≠ u →
  (Routes.get_profile u ps).1 !! u' = ps !! u'
  ∧ (Routes.put_profile u body ps).1 !! u' = ps !! u'
  ∧ (Routes.patch_profile u body ps).1 !! u' = ps !! u'.
Proof.
  intros Hne.
  assert ((Routes.ensureProfile u ps).1 !! u' = ps !! u') as Hensure.
  { unfold Routes.ensureProfile. destruct (ps !! u); simpl; [done|].
    by rewrite lookup_insert_ne. }
  unfold Routes.get_profile, Routes.put_profile, Routes.patch_profile.
  destruct (Routes.ensureProfile u ps) as [ps1 existing]. simpl in Hensure.
  cbv zeta. cbn [fst]. by rewrite !lookup_insert_ne.
Qed.

Lemma other_profiles_are_untouched_witness :
  (Routes.get_profile "3" ∅).1 !! "2" = (∅ : gmap string _) !! "2"
  ∧ (Routes.put_profile "3" phone_update ∅).1 !! "2"
    = (∅ : gmap string _) !! "2"
  ∧ (Routes.patch_profile "3" phone_update ∅).1 !! "2"
    = (∅ : gmap string _) !! "2".
Proof.
  apply (other_profiles_are_untouched "3" "2" phone_update ∅). discriminate.
Defined.

(** ** The view [facility_stats] *)

(** A join whose condition reads the left row only through a value all left
    rows share pairs every left row with the same matches. *)
Lemma left_join_same {A B} (on : A → B → bool) (p : B → bool) l r :
  (∀ a, a ∈ l → ∀ b, on a b = p b) →
  left_join on l r
  = l ≫= λ a, match List.filter p r with
              | [] => [(a, None)]
              | matches => (λ b, (a, Some b)) <$> matches
              end.
Proof.
  unfold left_join. induction l as [|a l IH]; intros Hon; [done|].
  rewrite !bind_cons. rewrite IH by (intros a' Ha'; apply Hon; by right).
  by rewrite (List.filter_ext (on a) p) by (apply Hon; by left).
Qed.

Section joined.
Context {A B : Type} (ms : list B).

(** A left row with its matches [ms]. *)
Let pad (a : A) : list (A * option B) :=
  match ms with
  | [] => [(a, None)]
  | b0 :: rest => (λ b, (a, Some b)) <$> b0 :: rest
  end.

Lemma filter_left_fmap (g : A → bool) a (l : list B) :
  List.filter (λ row : A * option B, g row.1) ((λ b, (a, Some b)) <$> l)
  = if g a then (λ b, (a, Some b)) <$> l else [].
Proof.
  induction l as [|b l IH]; [by destruct (g a)|].
  rewrite fmap_cons. cbn [List.filter fst]. rewrite IH. by destruct (g a).
Qed.

Lemma count_left_pad (g : A → bool) a :
  count_rows (λ row, g row.1) (pad a)
  = ((if g a then 1 else 0) * max 1 (length ms))%nat.
Proof.
  unfold pad, count_rows. destruct ms as [|b0 ms0].
  - simpl. by destruct (g a).
  - rewrite filter_left_fmap.
    destruct (g a); [rewrite length_fmap|]; simpl; lia.
Qed.

Lemma count_left (g : A → bool) l :
  count_rows (λ row, g row.1) (l ≫= pad)
  = (count_rows g l * max 1 (length ms))%nat.
Proof.
  induction l as [|a l IH]; [done|].
  rewrite bind_cons.
  unfold count_rows in *. rewrite List.filter_app, length_app, IH.
  fold (count_rows (λ row : A * option B, g row.1) (pad a)).
  rewrite count_left_pad. simpl. destruct (g a); simpl; lia.
Qed.

Lemma sum_left_pad (h : A → Z) a :
  sum_rows (λ row, h row.1) (pad a)
  = (h a * Z.of_nat (max 1 (length ms)))%Z.
Proof.
  unfold pad, sum_rows. destruct ms as [|b0 ms0]; simpl; [lia|].
  induction ms0 as [|b ms1 IH]; simpl in *; lia.
Qed.

Lemma sum_rows_app {C} (h : C → Z) l1 l2 :
  sum_rows h (l1 ++ l2) = (sum_rows h l1 + sum_rows h l2)%Z.
Proof. unfold sum_rows. induction l1; simpl; lia. Qed.

Lemma sum_left (h : A → Z) l :
  sum_rows (λ row, h row.1) (l ≫= pad)
  = (sum_rows h l * Z.of_nat (max 1 (length ms)))%Z.
Proof.
  induction l as [|a l IH]; [done|].
  rewrite bind_cons.
  rewrite sum_rows_app, IH, sum_left_pad. simpl. lia.
Qed.

Lemma count_right_pad (q : option B → bool) a :
  q None = false →
  count_rows (λ row, q row.2) (pad a) = count_rows (λ b, q (Some b)) ms.
Proof.
  intros Hq. unfold pad, count_rows. destruct ms as [|b0 ms0]; simpl.
  { by rewrite Hq. }
  destruct (q (Some b0)); simpl; [f_equal|];
    induction ms0 as [|b ms1 IH]; simpl; try done;
    destruct (q (Some b)); simpl; by rewrite ?IH.
Qed.

Lemma count_right (q : option B → bool) l :
  q None = false →
  count_rows (λ row, q row.2) (l ≫= pad)
  = (length l * count_rows (λ b, q (Some b)) ms)%nat.
Proof.
  intros Hq. induction l as [|a l IH]; [done|].
  rewrite bind_cons.
  unfold count_rows in *. rewrite List.filter_app, length_app, IH.
  fold (count_rows (λ row : A * option B, q row.2) (pad a)).
  rewrite (count_right_pad q a Hq). unfold count_rows. simpl. lia.
Qed.

Lemma sum_right_pad (k : option B → Z) a :
  k None = 0%Z →
  sum_rows (λ row, k row.2) (pad a) = sum_rows (λ b, k (Some b)) ms.
Proof.
  intros Hk. unfold pad, sum_rows. destruct ms as [|b0 ms0]; simpl; [lia|].
  f_equal. induction ms0 as [|b ms1 IH]; simpl; [done|]. by rewrite IH.
Qed.

Lemma sum_right (k : option B → Z) l :
  k None = 0%Z →
  sum_rows (λ row, k row.2) (l ≫= pad)
  = (Z.of_nat (length l) * sum_rows (λ b, k (Some b)) ms)%Z.
Proof.
  intros Hk. induction l as [|a l IH]; [simpl; lia|].
  rewrite bind_cons.
  rewrite sum_rows_app, IH, (sum_right_pad k a Hk).
  rewrite length_cons. lia.
Qed.

Lemma length_pad l :
  length (l ≫= pad) = (length l * max 1 (length ms))%nat.
Proof.
  induction l as [|a l IH]; [done|].
  rewrite bind_cons.
  rewrite length_app, IH. unfold pad.
  destruct ms; simpl; rewrite ?length_fmap; lia.
Qed.
End joined.

Lemma filter_at_most_one {A} (p : A → bool) (l : list A) :
  NoDup l → (∀ x y, p x = true → p y = true → x = y) →
  (length (List.filter p l) ≤ 1)%nat.
Proof.
  intros Hnodup Hone. induction Hnodup as [|a l Ha _ IH]; simpl; [lia|].
  destruct (p a) eqn:Hpa; [|done]. simpl.
  assert (List.filter p l = []) as ->; [|simpl; lia].
  destruct (List.filter p l) as [|b rest] eqn:Hf; [done|].
  assert (In b (List.filter p l)) as Hb by (rewrite Hf; by left).
  apply List.filter_In in Hb as [Hin Hpb].
  rewrite (Hone a b Hpa Hpb) in Ha. by apply list_elem_of_In in Hin.
Qed.

(** The rows of a facility's group: the facility, at most one user, each of
    its bookings (or none), each of its active reviews (or none). *)
Lemma facility_stats_rows_joined owner_text_is db reviews id f :
  (∀ u u', owner_text_is f u = true → owner_text_is f u' = true → u = u') →
  ∃ u : option uuid,
    facility_stats_rows owner_text_is db reviews id f
    = ([(id, f, u)]
         ≫= (λ a, match bookings_of db id with
                  | [] => [(a, None)]
                  | matches => (λ b, (a, Some b)) <$> matches
                  end))
        ≫= (λ a, match active_reviews_of reviews id with
                 | [] => [(a, None)]
                 | matches => (λ r, (a, Some r)) <$> matches
                 end).
Proof.
  intros Hone. unfold facility_stats_rows.
  assert (∃ u : option uuid,
            left_join (λ (f0 : uuid * facility) (u0 : uuid),
                         owner_text_is f0.2 u0)
              [(id, f)] (elements (users db)) = [(id, f, u)]) as [u ->].
  { unfold left_join. rewrite bind_cons. cbn [mbind list_bind].
    rewrite app_nil_r. cbn [snd].
    pose proof (filter_at_most_one (owner_text_is f) (elements (users db))
                  (NoDup_elements _) Hone) as Hlen.
    destruct (List.filter (owner_text_is f) (elements (users db)))
      as [|u0 [|u1 rest]]; simpl in Hlen; [by exists None| |lia].
    by exists (Some u0). }
  exists u.
  rewrite (left_join_same _ (λ b, bool_decide (id = facility_id b.2)))
    by (intros a Ha%list_elem_of_singleton b; by subst a).
  rewrite (left_join_same _
             (λ r, bool_decide (id = r_facility_id r)
                   && is_true (sql_eq (r_status r) (Some "active")))).
  - unfold bookings_of, active_reviews_of.
    rewrite (List.filter_ext
               (λ b : uuid * booking, bool_decide (id = facility_id b.2))
               (λ kb, bool_decide (facility_id kb.2 = id)))
      by (intros b; apply bool_decide_ext; split; congruence).
    rewrite (List.filter_ext
               (λ r, bool_decide (id = r_facility_id r)
                     && is_true (sql_eq (r_status r) (Some "active")))
               (λ r, bool_decide (r_facility_id r = id)
                     && bool_decide (r_status r = Some "active"))); [done|].
    intros r. f_equal; [apply bool_decide_ext; split; congruence|].
    destruct (r_status r) as [st|]; simpl.
    + destruct (decide (st = "active")) as [->|Hne].
      * by rewrite !bool_decide_eq_true_2.
      * rewrite !bool_decide_eq_false_2; [done|congruence|done].
    + reflexivity.
  - intros a Ha b. apply list_elem_of_bind in Ha as (a0 & Ha & Ha0).
    apply list_elem_of_singleton in Ha0. subst a0.
    destruct (List.filter _ _) as [|b0 bs] in Ha.
    + apply list_elem_of_singleton in Ha. by subst a.
    + apply list_elem_of_fmap in Ha as (b1 & -> & _). done.
Qed.

Lemma count_rows_all {A} (l : list A) : count_rows (λ _, true) l = length l.
Proof. unfold count_rows. induction l; simpl; [done|]. by f_equal. Qed.

(** X24. The counts and the revenue of [facility_stats] are multiplied by
    the join: for a facility with [n] bookings and [m] active reviews,
    [total_bookings] is [n] times [m] (or [n], without reviews) and
    [total_reviews] is [m] times [n] (or [m], without bookings); the
    completed and cancelled bookings, the revenue and the positive
    reviews are multiplied the same way. *)
Theorem facility_stats_multiplies owner_text_is db reviews id f stats :
  (∀ u u', owner_text_is f u = true → owner_text_is f u' = true → u = u') →
  facilities db !! id = Some f →
  facility_stats owner_text_is db reviews id = Some stats →
  total_bookings stats
  = (length (bookings_of db id)
     * max 1 (length (active_reviews_of reviews id)))%nat
  ∧ completed_bookings stats
    = (count_rows (λ kb, bool_decide (status kb.2 = "completed"))
         (bookings_of db id)
       * max 1 (length (active_reviews_of reviews id)))%nat
  ∧ cancelled_bookings stats
    = (count_rows (λ kb, bool_decide (status kb.2 = "cancelled"))
         (bookings_of db id)
       * max 1 (length (active_reviews_of reviews id)))%nat
  ∧ total_revenue stats
    = (sum_rows (λ kb, revenue kb.2) (bookings_of db id)
       * Z.of_nat (max 1 (length (active_reviews_of reviews id))))%Z
  ∧ total_reviews stats
    = (length (active_reviews_of reviews id)
       * max 1 (length (bookings_of db id)))%nat
  ∧ positive_reviews stats
    = (count_rows (λ r, (4 <=? rating r)%Z) (active_reviews_of reviews id)
       * max 1 (length (bookings_of db id)))%nat.
Proof.
  intros Hone Hf. unfold facility_stats. rewrite Hf.
  match goal with
  | |- _ → ?G =>
      change (Some (aggregate
                      (facility_stats_rows owner_text_is db reviews id f))
              = Some stats → G)
  end.
  intros Hstats.
  assert (stats
          = aggregate (facility_stats_rows owner_text_is db reviews id f))
    as -> by congruence.
  clear Hstats.
  destruct (facility_stats_rows_joined owner_text_is db reviews id f Hone)
    as [u ->].
  set (B := bookings_of db id). set (R := active_reviews_of reviews id).
  unfold aggregate.
  cbn [total_bookings completed_bookings cancelled_bookings
       total_revenue total_reviews positive_reviews].
  repeat split.
  - rewrite (count_left R (λ a, booking_has (λ _, true) a.2)).
    rewrite (count_right B (booking_has (λ _, true))) by done.
    change (λ b : uuid * booking, booking_has (λ _, true) (Some b))
      with (λ _ : uuid * booking, true).
    rewrite count_rows_all. simpl. lia.
  - rewrite (count_left R
               (λ a, booking_has (λ b, bool_decide (status b = "completed"))
                       a.2)).
    rewrite (count_right B
               (booking_has (λ b, bool_decide (status b = "completed"))))
      by done.
    simpl. lia.
  - rewrite (count_left R
               (λ a, booking_has (λ b, bool_decide (status b = "cancelled"))
                       a.2)).
    rewrite (count_right B
               (booking_has (λ b, bool_decide (status b = "cancelled"))))
      by done.
    simpl. lia.
  - rewrite (sum_left R
               (λ a, match a.2 with
                     | Some kb => revenue kb.2
                     | None => 0%Z
                     end)).
    rewrite (sum_right B
               (λ b, match b with
                     | Some kb => revenue kb.2
                     | None => 0%Z
                     end)) by done.
    simpl. lia.
  - rewrite (count_right R (review_has (λ _, true))) by done.
    change (λ b : facility_review, review_has (λ _, true) (Some b))
      with (λ _ : facility_review, true).
    rewrite count_rows_all, length_pad. simpl. lia.
  - rewrite (count_right R (review_has (λ r, (4 <=? rating r)%Z))) by done.
    rewrite length_pad. simpl. lia.
Qed.

Lemma facility_stats_multiplies_witness :
  ∃ stats,
    facility_stats owner_is double_booked_db sample_reviews court = Some stats
    ∧ total_bookings stats = 4%nat ∧ total_reviews stats = 4%nat.
Proof.
  eexists. split; [vm_compute; reflexivity|].
  pose proof (facility_stats_multiplies owner_is double_booked_db
                sample_reviews court (mk_facility (Some owner)) _
                ltac:(intros u u' Hu Hu';
                      apply bool_decide_eq_true in Hu, Hu'; congruence)
                ltac:(vm_compute; reflexivity)
                ltac:(vm_compute; reflexivity))
    as (Hb & _ & _ & _ & Hr & _).
  split; [exact Hb | exact Hr].
Defined.

Lemma Qdiv_scale (s m n : Z) :
  (0 < m)%Z → (0 < n)%Z →
  (inject_Z (m * s) / inject_Z (m * n) == inject_Z s / inject_Z n)%Q.
Proof.
  intros Hm Hn. rewrite !inject_Z_mult. field.
  split; intros H0; apply (proj1 (inject_Z_injective _ 0)) in H0; lia.
Qed.

Lemma sum_rows_rating_bounds (rs : list facility_review) :
  Forall (λ r, (1 ≤ rating r ≤ 5)%Z) rs →
  (Z.of_nat (length rs) ≤ sum_rows rating rs ≤ 5 * Z.of_nat (length rs))%Z.
Proof.
  unfold sum_rows. induction 1 as [|r rs Hr _ IH]; simpl; lia.
Qed.

(** X25. The average is not multiplied: for ratings from 1 to 5, as the
    [CHECK] on [rating] has them, [average_rating] is the mean of the
    ratings of the facility's active reviews rounded to sixteen decimal
    places or more, so within [5 * 10 ^ -17] of the mean, whatever the
    bookings of the facility; and it is 0 when the facility has no active
    review. *)
Theorem facility_stats_average owner_text_is db reviews id f stats :
  (∀ u u', owner_text_is f u = true → owner_text_is f u' = true → u = u') →
  Forall (λ r, (1 ≤ rating r ≤ 5)%Z) reviews →
  facilities db !! id = Some f →
  facility_stats owner_text_is db reviews id = Some stats →
  match active_reviews_of reviews id with
  | [] => (average_rating stats == 0)%Q
  | rs =>
      (Qabs (average_rating stats
             - inject_Z (sum_rows rating rs) / inject_Z (Z.of_nat (length rs)))
       <= 5 # 100000000000000000)%Q
  end.
Proof.
  intros Hone Hratings Hf. unfold facility_stats. rewrite Hf.
  match goal with
  | |- _ → ?G =>
      change (Some (aggregate
                      (facility_stats_rows owner_text_is db reviews id f))
              = Some stats → G)
  end.
  intros Hstats.
  assert (stats
          = aggregate (facility_stats_rows owner_text_is db reviews id f))
    as -> by congruence.
  clear Hstats.
  destruct (facility_stats_rows_joined owner_text_is db reviews id f Hone)
    as [u ->].
  assert (Forall (λ r, (1 ≤ rating r ≤ 5)%Z) (active_reviews_of reviews id))
    as HR.
  { unfold active_reviews_of. apply Forall_forall. intros r Hr.
    apply list_elem_of_In, List.filter_In in Hr as [Hr _].
    apply list_elem_of_In in Hr.
    by apply (proj1 (Forall_forall _ _) Hratings). }
  apply sum_rows_rating_bounds in HR.
  set (B := bookings_of db id).
  set (R := active_reviews_of reviews id) in *.
  unfold aggregate. cbn [average_rating].
  rewrite (count_right R (review_has (λ _, true))) by done.
  change (λ b : facility_review, review_has (λ _, true) (Some b))
    with (λ _ : facility_review, true).
  rewrite count_rows_all, length_pad.
  rewrite (sum_right R (λ r, match r with
                            | Some r => rating r
                            | None => 0%Z
                            end)) by done.
  rewrite length_pad.
  change (λ b : facility_review, rating b) with rating.
  destruct R as [|r0 R0] eqn:HReq.
  { rewrite bool_decide_eq_true_2; [reflexivity|]. simpl. lia. }
  rewrite bool_decide_eq_false_2 by (simpl; lia).
  set (n := length (r0 :: R0)) in *.
  set (m := (length [(id, f, u)] * max 1 (length B))%nat).
  assert (0 < Z.of_nat n)%Z by (unfold n; simpl; lia).
  assert (0 < Z.of_nat m)%Z by (unfold m; simpl; lia).
  rewrite (Nat2Z.inj_mul m n).
  rewrite <-(Qdiv_scale (sum_rows rating (r0 :: R0)) (Z.of_nat m)
               (Z.of_nat n)) by done.
  apply ratio_close; nia.
Qed.

Lemma facility_stats_average_witness :
  ∃ stats,
    facility_stats owner_is double_booked_db uneven_reviews court = Some stats
    ∧ (average_rating stats == 43333333333333333 # 10000000000000000)%Q
    ∧ (Qabs (average_rating stats - (13 # 3)) <= 5 # 100000000000000000)%Q.
Proof.
  eexists. split; [vm_compute; reflexivity|]. split; [reflexivity|].
  apply (facility_stats_average owner_is double_booked_db uneven_reviews
           court (mk_facility (Some owner)));
    [ intros u u' Hu Hu'; apply bool_decide_eq_true in Hu, Hu'; congruence
    | repeat constructor; vm_compute; discriminate
    | vm_compute; reflexivity | vm_compute; reflexivity ].
Defined.
